(** * Wallabag Sync: a shallow embedding of the sync engine

    The development follows [src/main.ts] (the plugin class
    [WallabagSyncPlugin]) and, for the hand-rolled converter
    [htmlToMarkdown], the earlier revision of the same file kept under
    [src/unnamed/].

    Conventions.
    - A JavaScript string is a [string]; its characters are code units
      below 256.
    - [Date.now()] is an integer number of milliseconds ([Z]); the
      watermark [since] is a JavaScript number holding [Date.now() / 1000]
      and is kept as an exact rational ([Q]).
    - [async] methods run to completion one after the other; they are
      functions from the plugin's world (settings object, persisted data,
      vault, clock, log of network requests, notices, console) to an outcome
      and the world they leave behind.  A thrown error leaves the mutations
      made so far in place.
    - The vault of the host is a map from paths to files and folders.
      [vault.create] is the host's: it refuses a path that is taken, and a
      path whose parent is missing or is a file.
    - A number key of the settings that was never assigned ([tokenExpiry],
      which has no default) is [undefined], written [None]. *)

From Stdlib Require Import ZArith QArith Ascii String List Lia.
From stdpp Require Import base option list gmap strings pretty.

Local Open Scope stdpp_scope.

(** ** Strings *)

Module Str.

Definition nl : string := String "010"%char "".
Definition dquote : ascii := "034"%char.

Fixpoint drop (n : nat) (s : string) : string :=
  match n, s with
  | S k, String _ s' => drop k s'
  | _, _ => s
  end.

(** [contains t s]: [t] occurs in [s] as a contiguous substring. *)
Definition contains (t s : string) : Prop :=
  exists a b, s = a +:+ t +:+ b.

(** Executable version of [contains]. *)
Fixpoint containsb (t s : string) : bool :=
  String.prefix t s ||
  match s with
  | "" => false
  | String _ s' => containsb t s'
  end.

Fixpoint mem (c : ascii) (s : string) : bool :=
  match s with
  | "" => false
  | String x s' => Ascii.eqb c x || mem c s'
  end.

(** [Array.prototype.join]. *)
Fixpoint join (sep : string) (l : list string) : string :=
  match l with
  | [] => ""
  | [x] => x
  | x :: l' => x +:+ sep +:+ join sep l'
  end.

(** White space and line terminators of ECMAScript ([\s], [trim])
    among the code units below 256. *)
Definition is_space (c : ascii) : bool :=
  match c with
  | "009" | "010" | "011" | "012" | "013" | " " | "160" => true
  | _ => false
  end%char.

Fixpoint trimStart (s : string) : string :=
  match s with
  | "" => ""
  | String c s' => if is_space c then trimStart s' else s
  end.

Fixpoint trimEnd (s : string) : string :=
  match s with
  | "" => ""
  | String c s' =>
      match trimEnd s' with
      | "" => if is_space c then "" else String c ""
      | t => String c t
      end
  end.

(** [String.prototype.trim]. *)
Definition trim (s : string) : string := trimEnd (trimStart s).

(** The path of the parent: what stands before the last ['/'], and the
    root, [""], when there is none. *)
Fixpoint dirname (path : string) : string :=
  match path with
  | "" => ""
  | String c rest => if mem "/" rest then String c (dirname rest) else ""
  end.

End Str.

(** ** Regular expressions

    The fragment of ECMAScript regular expressions used by the plugin,
    matched by backtracking with the priorities of the language: a quantifier
    is greedy, the left alternative is tried first. *)

Module Regex.

Inductive regex : Type :=
| Lit (pat : string)            (* a sequence of literal characters *)
| Class (p : ascii -> bool)      (* one character of a class *)
| Eos                            (* [$] without the [m] flag *)
| Seq (r1 r2 : regex)
| Alt (r1 r2 : regex)            (* [r1|r2] *)
| Opt (r : regex)                (* [r?] *)
| Star (p : ascii -> bool)       (* [c*] for a class [c] *)
| Plus (p : ascii -> bool).      (* [c+] for a class [c] *)

(** A continuation receives the rest of the input and the number of
    characters consumed so far. *)
Definition cont : Type := string -> nat -> option nat.

Fixpoint lit_match (pat s : string) (n : nat) (k : cont) : option nat :=
  match pat with
  | "" => k s n
  | String a pat' =>
      match s with
      | String c s' => if Ascii.eqb a c then lit_match pat' s' (S n) k else None
      | "" => None
      end
  end.

Fixpoint star_match (p : ascii -> bool) (s : string) (n : nat) (k : cont)
  : option nat :=
  match s with
  | String c s' =>
      if p c then
        match star_match p s' (S n) k with
        | Some r => Some r
        | None => k s n
        end
      else k s n
  | "" => k s n
  end.

Fixpoint rmatch (r : regex) (s : string) (n : nat) (k : cont) : option nat :=
  match r with
  | Lit pat => lit_match pat s n k
  | Class p =>
      match s with
      | String c s' => if p c then k s' (S n) else None
      | "" => None
      end
  | Eos => match s with "" => k s n | _ => None end
  | Seq r1 r2 => rmatch r1 s n (fun s' n' => rmatch r2 s' n' k)
  | Alt r1 r2 =>
      match rmatch r1 s n k with
      | Some x => Some x
      | None => rmatch r2 s n k
      end
  | Opt r1 =>
      match rmatch r1 s n k with
      | Some x => Some x
      | None => k s n
      end
  | Star p => star_match p s n k
  | Plus p =>
      match s with
      | String c s' => if p c then star_match p s' (S n) k else None
      | "" => None
      end
  end.

(** Length of the match of [r] that starts at the head of [s], if any. *)
Definition exec (r : regex) (s : string) : option nat :=
  rmatch r s 0 (fun _ n => Some n).

(** [s.replace(/r/g, rep)]: every match, leftmost first, the search
    resuming where the previous match ended.  [skip] counts the characters
    of the current match that are still to be dropped. *)
Fixpoint replace_from (r : regex) (rep : string) (skip : nat) (s : string)
  : string :=
  match s with
  | "" => match skip, exec r "" with
          | O, Some _ => rep
          | _, _ => ""
          end
  | String c s' =>
      match skip with
      | S k => replace_from r rep k s'
      | O =>
          match exec r s with
          | Some (S n) => rep +:+ replace_from r rep n s'
          | Some O => rep +:+ String c (replace_from r rep 0 s')
          | None => String c (replace_from r rep 0 s')
          end
      end
  end.

Definition replace_all (r : regex) (rep s : string) : string :=
  replace_from r rep 0 s.

(** [s.replace(r, rep)] for a pattern without the [g] flag, and for a
    string pattern ([Lit]): the first match only. *)
Fixpoint replace_first (r : regex) (rep s : string) : string :=
  match exec r s with
  | Some n => rep +:+ Str.drop n s
  | None =>
      match s with
      | "" => ""
      | String c s' => String c (replace_first r rep s')
      end
  end.

Definition chr (a : ascii) : regex := Class (Ascii.eqb a).
(** A letter under the [i] flag. *)
Definition chr_i (lower upper : ascii) : regex :=
  Class (fun c => Ascii.eqb lower c || Ascii.eqb upper c).
Definition one_of (set : string) : regex := Class (fun c => Str.mem c set).
Definition none_of (set : string) : ascii -> bool :=
  fun c => negb (Str.mem c set).

End Regex.

Import Regex.

(** ** Pure text functions of the plugin *)

(** The character class of the pattern in [createOrUpdateArticleNote]:
    backslash, slash, colon, star, question mark, double quote, angle
    brackets and vertical bar. *)
Definition unsafe_chars : string :=
  String "\"%char (String "/"%char (String ":"%char (String "*"%char
  (String "?"%char (String Str.dquote (String "<"%char (String ">"%char
  (String "|"%char "")))))))).

(** What the replacement makes of one character of a title. *)
Definition dash_unsafe (c : ascii) : ascii :=
  if Str.mem c unsafe_chars then "-"%char else c.

Definition sanitizeTitle (title : string) : string :=
  replace_all (one_of unsafe_chars) "-" title.

(** The path [createOrUpdateArticleNote] derives for a title. *)
Definition notePath (folder title : string) : string :=
  folder +:+ "/" +:+ (sanitizeTitle title +:+ ".md").

(** [/<br\s*\/?>/gi] *)
Definition re_br : regex :=
  Seq (chr "<") (Seq (chr_i "b" "B") (Seq (chr_i "r" "R")
    (Seq (Star Str.is_space) (Seq (Opt (chr "/")) (chr ">"))))).

(** [/<\/?[^>]+(>|$)/g] *)
Definition re_tag : regex :=
  Seq (chr "<") (Seq (Opt (chr "/")) (Seq (Plus (none_of ">"))
    (Alt (chr ">") Eos))).

(** [htmlToMarkdown] of the revision under [src/unnamed/]. *)
Definition htmlToMarkdown (html : string) : string :=
  Str.trim
    (replace_all (Lit "&gt;") ">"
      (replace_all (Lit "&lt;") "<"
        (replace_all (Lit "&amp;") "&"
          (replace_all (Lit "&nbsp;") " "
            (replace_all re_tag ""
              (replace_all re_br Str.nl html)))))).

(** The text on which the entity replacements start: line breaks replaced,
    tags stripped. *)
Definition stripTags (html : string) : string :=
  replace_all re_tag "" (replace_all re_br Str.nl html).


(** ** Data model *)

Module Tag.
Record t : Type := { label : string }.
End Tag.

(** An article as the entries endpoint returns it.  [content] and [tags] may
    be absent (or [null]). *)
Module Article.
Record t : Type := {
  id : Z;
  title : string;
  url : string;
  created_at : string;
  content : option string;
  tags : option (list Tag.t)
}.
End Article.

(** A number key that may never have been assigned: [None] is [undefined].
    [undefined - 60 * 1000] is [NaN], and every comparison with [NaN] is
    false. *)
Definition number_sub (x : option Z) (y : Z) : option Z :=
  match x with Some v => Some (v - y)%Z | None => None end.

(** [t > x]. *)
Definition number_gt (t : Z) (x : option Z) : bool :=
  match x with Some v => (v <? t)%Z | None => false end.

(** [WallabagSyncSettings].  [tokenExpiry] is no key of [DEFAULT_SETTINGS]:
    it is [undefined] until [authenticate] assigns it. *)
Record WallabagSyncSettings : Type := {
  noteFolder : string;
  instanceUrl : string;
  clientId : string;
  clientSecret : string;
  username : string;
  password : string;
  onlyStarred : bool;
  permaAPIKey : string;
  accessToken : string;
  refreshToken : string;
  tokenExpiry : option Z;
  since : Q
}.

Definition set_accessToken (v : string) (s : WallabagSyncSettings) :=
  {| noteFolder := noteFolder s; instanceUrl := instanceUrl s;
     clientId := clientId s; clientSecret := clientSecret s;
     username := username s; password := password s;
     onlyStarred := onlyStarred s; permaAPIKey := permaAPIKey s;
     accessToken := v; refreshToken := refreshToken s;
     tokenExpiry := tokenExpiry s; since := since s |}.

Definition set_refreshToken (v : string) (s : WallabagSyncSettings) :=
  {| noteFolder := noteFolder s; instanceUrl := instanceUrl s;
     clientId := clientId s; clientSecret := clientSecret s;
     username := username s; password := password s;
     onlyStarred := onlyStarred s; permaAPIKey := permaAPIKey s;
     accessToken := accessToken s; refreshToken := v;
     tokenExpiry := tokenExpiry s; since := since s |}.

Definition set_tokenExpiry (v : Z) (s : WallabagSyncSettings) :=
  {| noteFolder := noteFolder s; instanceUrl := instanceUrl s;
     clientId := clientId s; clientSecret := clientSecret s;
     username := username s; password := password s;
     onlyStarred := onlyStarred s; permaAPIKey := permaAPIKey s;
     accessToken := accessToken s; refreshToken := refreshToken s;
     tokenExpiry := Some v; since := since s |}.

Definition set_since (v : Q) (s : WallabagSyncSettings) :=
  {| noteFolder := noteFolder s; instanceUrl := instanceUrl s;
     clientId := clientId s; clientSecret := clientSecret s;
     username := username s; password := password s;
     onlyStarred := onlyStarred s; permaAPIKey := permaAPIKey s;
     accessToken := accessToken s; refreshToken := refreshToken s;
     tokenExpiry := tokenExpiry s; since := v |}.

(** A string in a condition: the empty string is falsy. *)
Definition truthy (s : string) : bool :=
  match s with "" => false | _ => true end.

(** *** Network *)

Inductive Method : Type := GET | POST.

Module Request.
Record t : Type := {
  method : Method;
  url : string;
  headers : list (string * string);
  body : list (string * string)
}.
End Request.

(** The parsed body of a response: the fields the plugin reads. *)
Module Json.
Record Link : Type := { href : string }.
Record Embedded : Type := { items : option (list Article.t) }.
Record Links : Type := { next : option Link }.
Record t : Type := {
  access_token : string;
  refresh_token : string;
  expires_in : Z;
  _embedded : option Embedded;
  _links : option Links
}.
End Json.

Module Response.
Record t : Type := {
  ok : bool;
  text : string;
  json : Json.t
}.
End Response.

(** [Error]: one made by the plugin or the host with a message, or the
    error with which the file system of the host refuses a file whose parent
    is no folder (its text is the platform's). *)
Inductive Error : Type :=
| Err (message : string)
| NoFolder (path : string).

(** What [fetch] resolves to: a response, or a rejection (no connection). *)
Inductive Reply : Type :=
| Rejected (e : Error)
| Responded (r : Response.t).

(** *** Vault (the note store of the host) *)

Inductive Entry : Type :=
| TFile (data : string)
| TFolder.

(** *** World *)

Record World : Type := {
  settings : WallabagSyncSettings;      (* [this.settings] *)
  saved : WallabagSyncSettings;         (* what [saveData] wrote last *)
  vault : gmap string Entry;
  clock : Z;                            (* [Date.now()] *)
  requests : list Request.t;            (* requests sent, oldest first *)
  notices : list string;                (* notices shown, oldest first *)
  console : list Error                  (* [console.error] *)
}.

Definition with_settings (f : WallabagSyncSettings -> WallabagSyncSettings)
  (w : World) : World :=
  {| settings := f (settings w); saved := saved w; vault := vault w;
     clock := clock w; requests := requests w; notices := notices w;
     console := console w |}.

Definition with_saved (s : WallabagSyncSettings) (w : World) : World :=
  {| settings := settings w; saved := s; vault := vault w;
     clock := clock w; requests := requests w; notices := notices w;
     console := console w |}.

Definition with_vault (v : gmap string Entry) (w : World) : World :=
  {| settings := settings w; saved := saved w; vault := v;
     clock := clock w; requests := requests w; notices := notices w;
     console := console w |}.

Definition with_notice (msg : string) (w : World) : World :=
  {| settings := settings w; saved := saved w; vault := vault w;
     clock := clock w; requests := requests w;
     notices := notices w ++ [msg]; console := console w |}.

Definition with_console (e : Error) (w : World) : World :=
  {| settings := settings w; saved := saved w; vault := vault w;
     clock := clock w; requests := requests w; notices := notices w;
     console := console w ++ [e] |}.

Definition with_request (req : Request.t) (dt : Z) (w : World) : World :=
  {| settings := settings w; saved := saved w; vault := vault w;
     clock := (clock w + dt)%Z; requests := requests w ++ [req];
     notices := notices w; console := console w |}.

(** ** The monad of the plugin's methods *)

Inductive Outcome (A : Type) : Type :=
| Return (a : A)
| Throw (e : Error)
| Pending.            (* the loop has not finished within the fuel given *)

Arguments Return {A} a.
Arguments Throw {A} e.
Arguments Pending {A}.

Definition M (A : Type) : Type := World -> Outcome A * World.

Definition ret {A} (a : A) : M A := fun w => (Return a, w).

Definition throw {A} (e : Error) : M A := fun w => (Throw e, w).

Definition pending {A} : M A := fun w => (Pending, w).

Definition bind {A B} (m : M A) (k : A -> M B) : M B :=
  fun w =>
    match m w with
    | (Return a, w') => k a w'
    | (Throw e, w') => (Throw e, w')
    | (Pending, w') => (Pending, w')
    end.

(** [try { m } catch (e) { h e }] *)
Definition try_catch {A} (m : M A) (h : Error -> M A) : M A :=
  fun w =>
    match m w with
    | (Throw e, w') => h e w'
    | r => r
    end.

Definition gets {A} (f : World -> A) : M A := fun w => (Return (f w), w).

Definition update (f : World -> World) : M unit := fun w => (Return tt, f w).

Declare Scope plugin_scope.
Delimit Scope plugin_scope with plugin.
Notation "x <- m ;; k" := (bind m (fun x => k))
  (at level 100, m at next level, right associativity) : plugin_scope.
Notation "m ;; k" := (bind m (fun _ => k))
  (at level 100, right associativity) : plugin_scope.

(** [for (const x of l) { await f x }] *)
Fixpoint for_of {A} (l : list A) (f : A -> M unit) : M unit :=
  match l with
  | [] => ret tt
  | x :: l' => bind (f x) (fun _ => for_of l' f)
  end.

(** ** The plugin *)

Section Plugin.

(** The remote service and the libraries the plugin calls. *)
Variable network : Request.t -> Reply.       (* what the service answers *)
Variable latency : Request.t -> Z.           (* how long a request takes, ms *)
Variable turndown : string -> string.        (* [TurndownService.turndown] *)
Variable numberToString : Q -> string.       (* a number in a template literal *)

Local Open Scope plugin_scope.

Definition Notice (msg : string) : M unit := update (with_notice msg).

Definition console_error (e : Error) : M unit := update (with_console e).

Definition Date_now : M Z := gets clock.

(** [await fetch(url, init)] *)
Definition fetch (req : Request.t) : M Response.t :=
  fun w =>
    let w' := with_request req (latency req) w in
    match network req with
    | Rejected e => (Throw e, w')
    | Responded r => (Return r, w')
    end.

(** *** The vault *)

Definition getAbstractFileByPath (path : string) : M (option Entry) :=
  gets (fun w => vault w !! path).

Definition vault_modify (path data : string) : M unit :=
  update (fun w => with_vault (<[path := TFile data]> (vault w)) w).

(** A folder of the vault; the root, [""], is always one. *)
Definition is_folder (v : gmap string Entry) (path : string) : bool :=
  match path, v !! path with
  | "", _ => true
  | _, Some TFolder => true
  | _, _ => false
  end.

(** [vault.create] refuses a path that is taken, and a path whose parent is
    missing or is a file. *)
Definition vault_create (path data : string) : M unit :=
  fun w =>
    match vault w !! path with
    | Some _ => (Throw (Err "File already exists."), w)
    | None =>
        if is_folder (vault w) (Str.dirname path)
        then (Return tt, with_vault (<[path := TFile data]> (vault w)) w)
        else (Throw (NoFolder path), w)
    end.

Definition adapter_exists (path : string) : M bool :=
  gets (fun w => match vault w !! path with Some _ => true | None => false end).

Definition adapter_mkdir (path : string) : M unit :=
  update (fun w => with_vault (<[path := TFolder]> (vault w)) w).

(** *** Methods of [WallabagSyncPlugin] *)

Definition saveSettings : M unit :=
  update (fun w => with_saved (settings w) w).

Definition token_request (s : WallabagSyncSettings) : Request.t :=
  {| Request.method := POST;
     Request.url := instanceUrl s +:+ "/oauth/v2/token";
     Request.headers :=
       [("Content-Type", "application/x-www-form-urlencoded")];
     Request.body :=
       [("grant_type", "password"); ("client_id", clientId s);
        ("client_secret", clientSecret s); ("username", username s);
        ("password", password s)] |}.

Definition authenticate : M unit :=
  s <- gets settings ;;
  if negb (truthy (instanceUrl s)) || negb (truthy (clientId s))
     || negb (truthy (clientSecret s)) || negb (truthy (username s))
     || negb (truthy (password s))
  then
    Notice "Please fill in all Wallabag credentials in the settings." ;;
    throw (Err "Missing credentials")
  else
    Notice "Authenticating with Wallabag..." ;;
    resp <- fetch (token_request s) ;;
    if negb (Response.ok resp) then
      Notice "Failed to authenticate with Wallabag." ;;
      throw (Err (Response.text resp))
    else
      let data := Response.json resp in
      update (with_settings (set_accessToken (Json.access_token data))) ;;
      update (with_settings (set_refreshToken (Json.refresh_token data))) ;;
      t <- Date_now ;;
      update (with_settings
                (set_tokenExpiry (t + Json.expires_in data * 1000)%Z)) ;;
      saveSettings.

Definition ensureTokenValid : M unit :=
  s <- gets settings ;;
  t <- Date_now ;;
  if negb (truthy (accessToken s))
     || number_gt t (number_sub (tokenExpiry s) (60 * 1000))
  then authenticate
  else ret tt.

(** The request of one turn of the loop of [fetchArticles]. *)
Definition entries_request (instanceUrl accessToken : string) (since : Q)
  (page : nat) (onlyStarred : bool) : Request.t :=
  let wbURL :=
    instanceUrl +:+ "/api/entries.json?since=" +:+ numberToString since
      +:+ "&page=" +:+ numberToString (inject_Z (Z.of_nat page))
      +:+ "&perPage=30" in
  let wbURL := if onlyStarred then wbURL +:+ "&starred=1" else wbURL in
  {| Request.method := GET;
     Request.url := wbURL;
     Request.headers := [("Authorization", "Bearer " +:+ accessToken)];
     Request.body := [] |}.

(** [data._embedded?.items || []] *)
Definition embedded_items (data : Json.t) : list Article.t :=
  match Json._embedded data with
  | Some e => default [] (Json.items e)
  | None => []
  end.

(** [data._links?.next] as a condition. *)
Definition has_next (data : Json.t) : bool :=
  match Json._links data with
  | Some l => match Json.next l with Some _ => true | None => false end
  | None => false
  end.

(** The [while (hasMore)] loop of [fetchArticles]; one unit of fuel per
    turn. *)
Fixpoint fetch_loop (fuel : nat) (instanceUrl accessToken : string)
  (since : Q) (articles : list Article.t) (page : nat)
  : M (list Article.t) :=
  match fuel with
  | O => pending
  | S fuel' =>
      starred <- gets (fun w => onlyStarred (settings w)) ;;
      resp <- fetch (entries_request instanceUrl accessToken since page
                       starred) ;;
      if negb (Response.ok resp) then
        throw (Err ("Failed to fetch articles: " +:+ Response.text resp))
      else
        let data := Response.json resp in
        let articles := articles ++ embedded_items data in
        if has_next data
        then fetch_loop fuel' instanceUrl accessToken since articles (S page)
        else ret articles
  end.

Definition fetchArticles (fuel : nat) : M (list Article.t) :=
  s <- gets settings ;;
  t <- Date_now ;;
  let newSince := (inject_Z t / 1000)%Q in
  Notice "Fetching Wallabag articles..." ;;
  articles <- fetch_loop fuel (instanceUrl s) (accessToken s) (since s) [] 1 ;;
  update (with_settings (set_since newSince)) ;;
  saveSettings ;;
  ret articles.

(** [t.label.replace(' ', '-')]: a string pattern. *)
Definition tag_text (t : Tag.t) : string :=
  replace_first (Lit " ") "-" (Tag.label t).

Definition articleToMarkdown (article : Article.t) : string :=
  "---" +:+ Str.nl +:+
  "url: " +:+ Article.url article +:+ Str.nl +:+
  "tags: " +:+
    Str.join ", " (map tag_text (default [] (Article.tags article)))
    +:+ Str.nl +:+
  "created_at: " +:+ Article.created_at article +:+ Str.nl +:+
  "wallabag id: " +:+ numberToString (inject_Z (Article.id article))
    +:+ Str.nl +:+
  "---" +:+ Str.nl +:+
  Str.nl +:+
  "# " +:+ Article.title article +:+ Str.nl +:+
  Str.nl +:+
  match Article.content article with
  | Some c => if truthy c then turndown c else ""
  | None => ""
  end +:+ Str.nl.

Definition createOrUpdateArticleNote (article : Article.t) (folder : string)
  : M unit :=
  let sanitizedTitle := sanitizeTitle (Article.title article) in
  let fileName := sanitizedTitle +:+ ".md" in
  let filePath := folder +:+ "/" +:+ fileName in
  let noteContent := articleToMarkdown article in
  existing <- getAbstractFileByPath filePath ;;
  match existing with
  | Some (TFile _) => vault_modify filePath noteContent
  | _ => vault_create filePath noteContent
  end.

Definition ensureFolderExists (folder : string) : M unit :=
  present <- adapter_exists folder ;;
  if negb present then adapter_mkdir folder else ret tt.

(** The block under [try] in [syncWallabagArticles]. *)
Definition sync_body (fuel : nat) : M unit :=
  ensureTokenValid ;;
  articles <- fetchArticles fuel ;;
  s <- gets settings ;;
  let folderPath :=
    if truthy (noteFolder s) then noteFolder s else "Wallabag" in
  ensureFolderExists folderPath ;;
  for_of articles (fun article =>
    createOrUpdateArticleNote article folderPath) ;;
  Notice ("Synced " +:+
          numberToString (inject_Z (Z.of_nat (length articles))) +:+
          " Wallabag articles.").

Definition syncWallabagArticles (fuel : nat) : M unit :=
  try_catch (sync_body fuel)
    (fun e =>
       console_error e ;;
       Notice "Sync failed. See console for details.").

End Plugin.

(** *** Vocabulary of the statements *)

Section Vocabulary.

Variable network : Request.t -> Reply.
Variable latency : Request.t -> Z.
Variable turndown : string -> string.
Variable numberToString : Q -> string.

Local Open Scope plugin_scope.

(** The statements of the [try] block that follow [fetchArticles]. *)
Definition write_notes (articles : list Article.t) : M unit :=
  s <- gets settings ;;
  let folderPath :=
    if truthy (noteFolder s) then noteFolder s else "Wallabag" in
  ensureFolderExists folderPath ;;
  for_of articles (fun article =>
    createOrUpdateArticleNote turndown numberToString article folderPath) ;;
  Notice ("Synced " +:+
          numberToString (inject_Z (Z.of_nat (length articles))) +:+
          " Wallabag articles.").

(** The [catch] block of [syncWallabagArticles]. *)
Definition sync_failed (e : Error) : M unit :=
  console_error e ;;
  Notice "Sync failed. See console for details.".

End Vocabulary.

(** The requests sent between two worlds of one run. *)
Definition issued (w w' : World) : list Request.t :=
  drop (length (requests w)) (requests w').

(** The world after a list of requests has been sent. *)
Definition with_requests (latency : Request.t -> Z) (l : list Request.t)
  (w : World) : World :=
  fold_left (fun w r => with_request r (latency r) w) l w.

(** A method that leaves the settings, the persisted data, the network and
    the clock alone. *)
Definition local {A} (m : M A) : Prop :=
  forall w,
    settings (snd (m w)) = settings w /\ saved (snd (m w)) = saved w
    /\ requests (snd (m w)) = requests w /\ clock (snd (m w)) = clock w.

(** No token is held, or the expiry held is a number less than sixty
    seconds ahead of the clock. *)
Definition token_stale (w : World) : Prop :=
  accessToken (settings w) = ""
  \/ exists expiry, tokenExpiry (settings w) = Some expiry
                    /\ (expiry - clock w < 60 * 1000)%Z.

(** The note of a title can be written under [folder]: no folder stands at
    its path and, when no note is there yet, [folder] is a folder of the
    vault. *)
Definition can_write (v : gmap string Entry) (folder title : string) : bool :=
  match v !! notePath folder title with
  | Some (TFile _) => true
  | Some TFolder => false
  | None => is_folder v folder
  end.

(** The world [d] milliseconds later, nothing else having happened. *)
Definition later (d : Z) (w : World) : World :=
  {| settings := settings w; saved := saved w; vault := vault w;
     clock := (clock w + d)%Z; requests := requests w;
     notices := notices w; console := console w |}.

(** The words of the specification: a token is held whose expiry is within
    sixty seconds of the clock, the sixtieth second included. *)
Definition expiry_within_sixty_seconds (w : World) : Prop :=
  accessToken (settings w) <> ""
  /\ exists expiry, tokenExpiry (settings w) = Some expiry
                    /\ (expiry - clock w <= 60 * 1000)%Z.

(** The notice with which [authenticate] opens, on either of its paths. *)
Definition authenticate_notice (msg : string) : Prop :=
  msg = "Please fill in all Wallabag credentials in the settings."
  \/ msg = "Authenticating with Wallabag...".

(** [authenticate] has been entered between [w] and [w']. *)
Definition authenticate_entered (w w' : World) : Prop :=
  exists msg rest,
    authenticate_notice msg /\ notices w' = notices w ++ msg :: rest.

(** One of the five credentials is empty. *)
Definition credentials_missing (s : WallabagSyncSettings) : Prop :=
  instanceUrl s = "" \/ clientId s = "" \/ clientSecret s = ""
  \/ username s = "" \/ password s = "".

(** ** A small instance: a service with two starred articles *)

Module Demo.

(** Decimal text of a rational with at most three decimals, as JavaScript
    prints such a number: no trailing zero, no point for a whole number. *)
Definition numberToString (q : Q) : string :=
  let n := Qnum q in
  let d := Zpos (Qden q) in
  let whole := (n / d)%Z in
  let milli := ((n * 1000 / d) mod 1000)%Z in
  let frac :=
    if (milli mod 10 =? 0)%Z then
      if (milli mod 100 =? 0)%Z then pretty (milli / 100)%Z
      else (if (milli <? 100)%Z then "0" else "") +:+ pretty (milli / 10)%Z
    else (if (milli <? 10)%Z then "00"
          else if (milli <? 100)%Z then "0" else "") +:+ pretty milli in
  if (milli =? 0)%Z then pretty whole else pretty whole +:+ "." +:+ frac.

(** A converter that keeps the text as it is stands in for Turndown. *)
Definition turndown (html : string) : string := html.

Definition latency (req : Request.t) : Z := 250.

Definition config : WallabagSyncSettings :=
  {| noteFolder := "Wallabag";
     instanceUrl := "https://app.wallabag.it";
     clientId := "1_abc";
     clientSecret := "s3cret";
     username := "reader";
     password := "pw";
     onlyStarred := true;
     permaAPIKey := "";
     accessToken := "";
     refreshToken := "";
     tokenExpiry := None;
     since := 0 |}.

(** The same settings without the password. *)
Definition no_password : WallabagSyncSettings :=
  {| noteFolder := "Wallabag";
     instanceUrl := "https://app.wallabag.it";
     clientId := "1_abc";
     clientSecret := "s3cret";
     username := "reader";
     password := "";
     onlyStarred := true;
     permaAPIKey := "";
     accessToken := "";
     refreshToken := "";
     tokenExpiry := None;
     since := 0 |}.

(** The same settings with a token that is good for two more minutes. *)
Definition signed_in : WallabagSyncSettings :=
  set_tokenExpiry 1700000120000 (set_accessToken "tok" config).

Definition world (s : WallabagSyncSettings) (v : gmap string Entry) : World :=
  {| settings := s; saved := s; vault := v; clock := 1700000000000;
     requests := []; notices := []; console := [] |}.

Definition article1 : Article.t :=
  {| Article.id := 7;
     Article.title := "A/B? Test";
     Article.url := "https://example.org/ab";
     Article.created_at := "2023-11-14T22:13:20+0000";
     Article.content := Some "<p>Body</p>";
     Article.tags := Some [ {| Tag.label := "machine learning notes" |};
                            {| Tag.label := "rocq" |} ] |}.

Definition article2 : Article.t :=
  {| Article.id := 8;
     Article.title := "Notes";
     Article.url := "https://example.org/notes";
     Article.created_at := "2023-11-14T22:14:00+0000";
     Article.content := None;
     Article.tags := None |}.

Definition grant : Json.t :=
  {| Json.access_token := "fresh"; Json.refresh_token := "again";
     Json.expires_in := 3600; Json._embedded := None; Json._links := None |}.

Definition page (l : list Article.t) (more : bool) : Json.t :=
  {| Json.access_token := ""; Json.refresh_token := "";
     Json.expires_in := 0;
     Json._embedded := Some {| Json.items := Some l |};
     Json._links :=
       Some {| Json.next :=
                 if more then Some {| Json.href := "next" |} else None |} |}.

Definition respond (j : Json.t) : Reply :=
  Responded {| Response.ok := true; Response.text := ""; Response.json := j |}.

Definition refuse (msg : string) : Reply :=
  Responded {| Response.ok := false; Response.text := msg;
               Response.json := page [] false |}.

Definition page_url (n : string) : string :=
  "https://app.wallabag.it/api/entries.json?since=0&page=" +:+ n
    +:+ "&perPage=30&starred=1".

(** Two pages of one article each. *)
Definition network (req : Request.t) : Reply :=
  match Request.method req with
  | POST => respond grant
  | GET =>
      if String.eqb (Request.url req) (page_url "1")
      then respond (page [article1] true)
      else if String.eqb (Request.url req) (page_url "2")
      then respond (page [article2] false)
      else refuse "not found"
  end.

(** The same service, out of order on its second page. *)
Definition flaky (req : Request.t) : Reply :=
  match Request.method req with
  | POST => respond grant
  | GET =>
      if String.eqb (Request.url req) (page_url "1")
      then respond (page [article1] true)
      else refuse "Bad Gateway"
  end.

(** A service with a single page. *)
Definition single (l : list Article.t) (req : Request.t) : Reply :=
  match Request.method req with
  | POST => respond grant
  | GET => respond (page l false)
  end.

(** A vault in which the path of the note of [article2] is a folder. *)
Definition blocked : gmap string Entry :=
  {[ "Wallabag" := TFolder; "Wallabag/Notes.md" := TFolder ]}.

End Demo.


(** Unfolds the combinators of the monad in a goal. *)
Ltac run :=
  unfold bind, ret, throw, pending, gets, update, try_catch, Notice,
    console_error, Date_now, saveSettings; simpl.

(** ** The settings tab *)

Definition set_noteFolder (v : string) (s : WallabagSyncSettings) :=
  {| noteFolder := v; instanceUrl := instanceUrl s;
     clientId := clientId s; clientSecret := clientSecret s;
     username := username s; password := password s;
     onlyStarred := onlyStarred s; permaAPIKey := permaAPIKey s;
     accessToken := accessToken s; refreshToken := refreshToken s;
     tokenExpiry := tokenExpiry s; since := since s |}.

Definition set_instanceUrl (v : string) (s : WallabagSyncSettings) :=
  {| noteFolder := noteFolder s; instanceUrl := v;
     clientId := clientId s; clientSecret := clientSecret s;
     username := username s; password := password s;
     onlyStarred := onlyStarred s; permaAPIKey := permaAPIKey s;
     accessToken := accessToken s; refreshToken := refreshToken s;
     tokenExpiry := tokenExpiry s; since := since s |}.

Definition set_clientId (v : string) (s : WallabagSyncSettings) :=
  {| noteFolder := noteFolder s; instanceUrl := instanceUrl s;
     clientId := v; clientSecret := clientSecret s;
     username := username s; password := password s;
     onlyStarred := onlyStarred s; permaAPIKey := permaAPIKey s;
     accessToken := accessToken s; refreshToken := refreshToken s;
     tokenExpiry := tokenExpiry s; since := since s |}.

Definition set_clientSecret (v : string) (s : WallabagSyncSettings) :=
  {| noteFolder := noteFolder s; instanceUrl := instanceUrl s;
     clientId := clientId s; clientSecret := v;
     username := username s; password := password s;
     onlyStarred := onlyStarred s; permaAPIKey := permaAPIKey s;
     accessToken := accessToken s; refreshToken := refreshToken s;
     tokenExpiry := tokenExpiry s; since := since s |}.

Definition set_username (v : string) (s : WallabagSyncSettings) :=
  {| noteFolder := noteFolder s; instanceUrl := instanceUrl s;
     clientId := clientId s; clientSecret := clientSecret s;
     username := v; password := password s;
     onlyStarred := onlyStarred s; permaAPIKey := permaAPIKey s;
     accessToken := accessToken s; refreshToken := refreshToken s;
     tokenExpiry := tokenExpiry s; since := since s |}.

Definition set_password (v : string) (s : WallabagSyncSettings) :=
  {| noteFolder := noteFolder s; instanceUrl := instanceUrl s;
     clientId := clientId s; clientSecret := clientSecret s;
     username := username s; password := v;
     onlyStarred := onlyStarred s; permaAPIKey := permaAPIKey s;
     accessToken := accessToken s; refreshToken := refreshToken s;
     tokenExpiry := tokenExpiry s; since := since s |}.

Definition set_onlyStarred (v : bool) (s : WallabagSyncSettings) :=
  {| noteFolder := noteFolder s; instanceUrl := instanceUrl s;
     clientId := clientId s; clientSecret := clientSecret s;
     username := username s; password := password s;
     onlyStarred := v; permaAPIKey := permaAPIKey s;
     accessToken := accessToken s; refreshToken := refreshToken s;
     tokenExpiry := tokenExpiry s; since := since s |}.

Definition set_permaAPIKey (v : string) (s : WallabagSyncSettings) :=
  {| noteFolder := noteFolder s; instanceUrl := instanceUrl s;
     clientId := clientId s; clientSecret := clientSecret s;
     username := username s; password := password s;
     onlyStarred := onlyStarred s; permaAPIKey := v;
     accessToken := accessToken s; refreshToken := refreshToken s;
     tokenExpiry := tokenExpiry s; since := since s |}.

Section SettingTab.

Local Open Scope plugin_scope.

(** The [onChange] and [onClick] handlers that
    [WallabagSyncSettingTab.display] installs, named after the setting. *)

Definition noteFolder_onChange (value : string) : M unit :=
  update (with_settings
            (set_noteFolder
               (if truthy (Str.trim value) then Str.trim value
                else "Wallabag"))) ;;
  saveSettings.

(** [this.display()] redraws the tab and leaves the plugin as it is. *)
Definition onlyStarred_onChange (value : bool) : M unit :=
  update (with_settings (set_onlyStarred value)) ;;
  saveSettings.

Definition instanceUrl_onChange (value : string) : M unit :=
  update (with_settings (set_instanceUrl value)) ;;
  saveSettings.

Definition clientId_onChange (value : string) : M unit :=
  update (with_settings (set_clientId (Str.trim value))) ;;
  saveSettings.

Definition clientSecret_onChange (value : string) : M unit :=
  update (with_settings (set_clientSecret (Str.trim value))) ;;
  saveSettings.

Definition username_onChange (value : string) : M unit :=
  update (with_settings (set_username (Str.trim value))) ;;
  saveSettings.

Definition password_onChange (value : string) : M unit :=
  update (with_settings (set_password (Str.trim value))) ;;
  saveSettings.

Definition permaAPIKey_onChange (value : string) : M unit :=
  update (with_settings (set_permaAPIKey (Str.trim value))) ;;
  saveSettings.

(** The button "Reset sync". *)
Definition resetSync_onClick : M unit :=
  update (with_settings (set_since 0)) ;;
  saveSettings ;;
  Notice "Sync memory reset.".

End SettingTab.

(** ** The stored data and [loadSettings]

    What [loadData] returns is an object in which any key may be missing;
    [DEFAULT_SETTINGS] is one too. *)

Module Stored.
Record t : Type := {
  noteFolder : option string;
  instanceUrl : option string;
  clientId : option string;
  clientSecret : option string;
  username : option string;
  password : option string;
  onlyStarred : option bool;
  permaAPIKey : option string;
  accessToken : option string;
  refreshToken : option string;
  tokenExpiry : option Z;
  since : option Q
}.
End Stored.

(** [{}] *)
Definition empty_object : Stored.t :=
  {| Stored.noteFolder := None; Stored.instanceUrl := None;
     Stored.clientId := None; Stored.clientSecret := None;
     Stored.username := None; Stored.password := None;
     Stored.onlyStarred := None; Stored.permaAPIKey := None;
     Stored.accessToken := None; Stored.refreshToken := None;
     Stored.tokenExpiry := None; Stored.since := None |}.

Definition DEFAULT_SETTINGS : Stored.t :=
  {| Stored.noteFolder := Some "Wallabag";
     Stored.instanceUrl := Some "https://app.wallabag.it";
     Stored.clientId := None; Stored.clientSecret := None;
     Stored.username := None; Stored.password := None;
     Stored.onlyStarred := Some true; Stored.permaAPIKey := None;
     Stored.accessToken := None; Stored.refreshToken := None;
     Stored.tokenExpiry := None; Stored.since := Some 0%Q |}.

(** One key of [Object.assign(target, source)]: the source's value when the
    source has the key. *)
Definition assign_key {A} (target source : option A) : option A :=
  match source with
  | Some v => Some v
  | None => target
  end.

(** [Object.assign(target, source)]; a [null] source is skipped. *)
Definition Object_assign (target : Stored.t) (source : option Stored.t)
  : Stored.t :=
  match source with
  | None => target
  | Some o =>
      {| Stored.noteFolder :=
           assign_key (Stored.noteFolder target) (Stored.noteFolder o);
         Stored.instanceUrl :=
           assign_key (Stored.instanceUrl target) (Stored.instanceUrl o);
         Stored.clientId :=
           assign_key (Stored.clientId target) (Stored.clientId o);
         Stored.clientSecret :=
           assign_key (Stored.clientSecret target) (Stored.clientSecret o);
         Stored.username :=
           assign_key (Stored.username target) (Stored.username o);
         Stored.password :=
           assign_key (Stored.password target) (Stored.password o);
         Stored.onlyStarred :=
           assign_key (Stored.onlyStarred target) (Stored.onlyStarred o);
         Stored.permaAPIKey :=
           assign_key (Stored.permaAPIKey target) (Stored.permaAPIKey o);
         Stored.accessToken :=
           assign_key (Stored.accessToken target) (Stored.accessToken o);
         Stored.refreshToken :=
           assign_key (Stored.refreshToken target) (Stored.refreshToken o);
         Stored.tokenExpiry :=
           assign_key (Stored.tokenExpiry target) (Stored.tokenExpiry o);
         Stored.since :=
           assign_key (Stored.since target) (Stored.since o) |}
  end.

(** The object as the plugin reads it.  A missing string or boolean key
    reads as the falsy value of its type, which is how every test of the
    plugin takes [undefined]; a missing [tokenExpiry] stays [undefined]. *)
Definition as_settings (o : Stored.t) : WallabagSyncSettings :=
  {| noteFolder := default "" (Stored.noteFolder o);
     instanceUrl := default "" (Stored.instanceUrl o);
     clientId := default "" (Stored.clientId o);
     clientSecret := default "" (Stored.clientSecret o);
     username := default "" (Stored.username o);
     password := default "" (Stored.password o);
     onlyStarred := default false (Stored.onlyStarred o);
     permaAPIKey := default "" (Stored.permaAPIKey o);
     accessToken := default "" (Stored.accessToken o);
     refreshToken := default "" (Stored.refreshToken o);
     tokenExpiry := Stored.tokenExpiry o;
     since := default 0%Q (Stored.since o) |}.

(** What [saveData(this.settings)] stores: every key that is defined. *)
Definition stored (s : WallabagSyncSettings) : Stored.t :=
  {| Stored.noteFolder := Some (noteFolder s);
     Stored.instanceUrl := Some (instanceUrl s);
     Stored.clientId := Some (clientId s);
     Stored.clientSecret := Some (clientSecret s);
     Stored.username := Some (username s);
     Stored.password := Some (password s);
     Stored.onlyStarred := Some (onlyStarred s);
     Stored.permaAPIKey := Some (permaAPIKey s);
     Stored.accessToken := Some (accessToken s);
     Stored.refreshToken := Some (refreshToken s);
     Stored.tokenExpiry := tokenExpiry s;
     Stored.since := Some (since s) |}.

(** [loadSettings]:
    [Object.assign({}, DEFAULT_SETTINGS, await this.loadData())]. *)
Definition loadSettings (data : option Stored.t) : WallabagSyncSettings :=
  as_settings
    (Object_assign (Object_assign empty_object (Some DEFAULT_SETTINGS)) data).

(** The world of a plugin that has just loaded [data], at time [t]. *)
Definition loaded (data : option Stored.t) (v : gmap string Entry) (t : Z)
  : World :=
  {| settings := loadSettings data; saved := loadSettings data; vault := v;
     clock := t; requests := []; notices := []; console := [] |}.

(** ** More instances of the service *)

Module Cases.

(** A service whose every page announces a next one. *)
Definition endless (req : Request.t) : Reply :=
  match Request.method req with
  | POST => Demo.respond Demo.grant
  | GET => Demo.respond (Demo.page [Demo.article2] true)
  end.

(** A service that cannot be reached for the articles. *)
Definition offline (req : Request.t) : Reply :=
  match Request.method req with
  | POST => Demo.respond Demo.grant
  | GET => Rejected (Err "Failed to fetch")
  end.

(** A service that refuses the credentials. *)
Definition denied (req : Request.t) : Reply := Demo.refuse "invalid_grant".

(** Two articles whose titles differ by an unsafe character. *)
Definition slash : Article.t :=
  {| Article.id := 11; Article.title := "Q/A";
     Article.url := "https://example.org/1";
     Article.created_at := "2024-01-01T00:00:00+0000";
     Article.content := Some "first"; Article.tags := None |}.

Definition colon : Article.t :=
  {| Article.id := 12; Article.title := "Q:A";
     Article.url := "https://example.org/2";
     Article.created_at := "2024-01-02T00:00:00+0000";
     Article.content := Some "second"; Article.tags := None |}.

(** A vault that holds the folder of the notes and nothing else. *)
Definition shelf : gmap string Entry := {[ "Wallabag" := TFolder ]}.

(** A vault in which a file stands where the folder of the notes is to be. *)
Definition misplaced : gmap string Entry := {[ "Wallabag" := TFile "" ]}.

(** Settings whose token expires sixty seconds after the clock of
    [Demo.world], to the millisecond. *)
Definition on_the_minute : WallabagSyncSettings :=
  set_tokenExpiry 1700000060000 (set_accessToken "tok" Demo.config).

(** Settings with a token and no expiry, as stored data that were edited
    by hand can give them. *)
Definition no_expiry : WallabagSyncSettings :=
  set_accessToken "tok" Demo.config.

(** Settings whose token ran out a minute ago. *)
Definition lapsed : WallabagSyncSettings :=
  set_tokenExpiry 1699999940000 (set_accessToken "old" Demo.config).

End Cases.

(** ** Texts with tags *)

(** A text made of pieces, each followed by a tag [<t>], and a last piece;
    and the same text without the tags. *)
Fixpoint tagged (pieces : list (string * string)) (last : string) : string :=
  match pieces with
  | [] => last
  | (a, t) :: l => a +:+ "<" +:+ t +:+ ">" +:+ tagged l last
  end.

Fixpoint untagged (pieces : list (string * string)) (last : string)
  : string :=
  match pieces with
  | [] => last
  | (a, _) :: l => a +:+ untagged l last
  end.

(** A piece of text without markup: neither [<] nor [&]. *)
Definition plain (a : string) : Prop :=
  Str.mem "<" a = false /\ Str.mem "&" a = false.

(** The inside of a tag that the line-break pattern does not take: not
    empty, without angle bracket, and [<t>] is not a [br] tag. *)
Definition tag_inside (t : string) : Prop :=
  t <> "" /\ Str.mem "<" t = false /\ Str.mem ">" t = false
  /\ forall rest, exec re_br ("<" +:+ t +:+ ">" +:+ rest) = None.

(** *** Vocabulary of the statements about notes *)

(** The vault after the notes of a list of articles have been written, one
    after the other, under [folder]. *)
Definition with_notes (turndown : string -> string)
  (numberToString : Q -> string) (folder : string)
  (articles : list Article.t) (v : gmap string Entry) : gmap string Entry :=
  fold_left
    (fun v article =>
       <[notePath folder (Article.title article) :=
           TFile (articleToMarkdown turndown numberToString article)]> v)
    articles v.

(** No folder stands at the path of the note of any of the articles. *)
Definition paths_free (folder : string) (articles : list Article.t)
  (v : gmap string Entry) : Prop :=
  forall article, In article articles ->
    v !! notePath folder (Article.title article) <> Some TFolder.

(** The vault once [ensureFolderExists folder] has run. *)
Definition with_folder (folder : string) (v : gmap string Entry)
  : gmap string Entry :=
  match v !! folder with
  | Some _ => v
  | None => <[folder := TFolder]> v
  end.

(** A method that leaves the console alone. *)
Definition keeps_console {A} (m : M A) : Prop :=
  forall w, console (snd (m w)) = console w.

(** ** The definitions on small inputs *)

Example sanitizeTitle_sample : sanitizeTitle "A/B? Test" = "A-B- Test".
Proof. reflexivity. Qed.

Example dirname_samples :
  Str.dirname "Wallabag/A-B- Test.md" = "Wallabag"
  /\ Str.dirname "a/b/c.md" = "a/b" /\ Str.dirname "c.md" = "".
Proof. repeat split; reflexivity. Qed.

Example exec_samples :
  exec re_br "<BR  />x" = Some 7 /\ exec re_br "<b>" = None
  /\ exec re_tag "</a>x" = Some 4 /\ exec re_tag "</>x" = Some 3
  /\ exec re_tag "<>" = None /\ exec re_tag "< open" = Some 6.
Proof. repeat split; reflexivity. Qed.

Example htmlToMarkdown_sample :
  htmlToMarkdown "  <p>a &amp;lt; b<br />c&nbsp;d</p> <i>e</i> "
  = "a < b" +:+ Str.nl +:+ "c d e".
Proof. vm_compute. reflexivity. Qed.

Example articleToMarkdown_sample :
  articleToMarkdown Demo.turndown Demo.numberToString Demo.article2
  = "---" +:+ Str.nl +:+ "url: https://example.org/notes" +:+ Str.nl
    +:+ "tags: " +:+ Str.nl
    +:+ "created_at: 2023-11-14T22:14:00+0000" +:+ Str.nl
    +:+ "wallabag id: 8" +:+ Str.nl +:+ "---" +:+ Str.nl +:+ Str.nl
    +:+ "# Notes" +:+ Str.nl +:+ Str.nl +:+ Str.nl.
Proof. vm_compute. reflexivity. Qed.

(** A first sync against the two-page service: one token request, two page
    requests, two notes, and the watermark at the time of entry of
    [fetchArticles], 250 ms after the start. *)
Example sync_two_pages :
  let w' := snd (syncWallabagArticles Demo.network Demo.latency Demo.turndown
                   Demo.numberToString 5 (Demo.world Demo.config ∅)) in
  map Request.method (requests w') = [POST; GET; GET]
  /\ notices w' = ["Authenticating with Wallabag...";
                   "Fetching Wallabag articles...";
                   "Synced 2 Wallabag articles."]
  /\ size (vault w') = 3
  /\ vault w' !! "Wallabag" = Some TFolder
  /\ vault w' !! "Wallabag/A-B- Test.md"
     = Some (TFile (articleToMarkdown Demo.turndown Demo.numberToString
                      Demo.article1))
  /\ vault w' !! "Wallabag/Notes.md"
     = Some (TFile (articleToMarkdown Demo.turndown Demo.numberToString
                      Demo.article2))
  /\ accessToken (settings w') = "fresh"
  /\ Demo.numberToString (since (saved w')) = "1700000000.25".
Proof.
  cbv zeta. repeat split; vm_compute; reflexivity.
Qed.

(** With two units of fuel less than the pages need, the run is pending. *)
Example sync_short_of_fuel :
  fst (syncWallabagArticles Demo.network Demo.latency Demo.turndown
         Demo.numberToString 1 (Demo.world Demo.signed_in ∅)) = Pending.
Proof. vm_compute. reflexivity. Qed.

(** ** Facts about strings *)

Module StrFacts.
Import Str.

Local Arguments String.append : simpl nomatch.

Lemma app_nil_r (s : string) : s +:+ "" = s.
Proof. induction s as [|c s IH]; simpl; [reflexivity | now rewrite IH]. Qed.

Lemma app_assoc (s t u : string) : (s +:+ t) +:+ u = s +:+ t +:+ u.
Proof. induction s as [|c s IH]; simpl; [reflexivity | now rewrite IH]. Qed.

Lemma length_app (s t : string) :
  String.length (s +:+ t) = String.length s + String.length t.
Proof. induction s as [|c s IH]; simpl; [reflexivity | now rewrite IH]. Qed.

Lemma drop_0 (s : string) : drop 0 s = s.
Proof. now destruct s. Qed.

Lemma drop_length (n : nat) (s : string) :
  String.length (drop n s) <= String.length s.
Proof.
  revert s; induction n as [|n IH]; intros [|c s]; simpl; try lia.
  specialize (IH s); lia.
Qed.

Lemma drop_app (n : nat) (a b : string) :
  n <= String.length a -> drop n (a +:+ b) = drop n a +:+ b.
Proof.
  revert a; induction n as [|n IH]; intros a Hn.
  - now rewrite !drop_0.
  - destruct a as [|c a]; simpl in *; [lia | apply IH; lia].
Qed.

Lemma drop_suffix (n : nat) (s : string) : exists a, s = a +:+ drop n s.
Proof.
  revert s; induction n as [|n IH]; intros s.
  - exists ""; now rewrite drop_0.
  - destruct s as [|c s]; [now exists ""|].
    destruct (IH s) as [a Ha]. exists (String c a); simpl; now rewrite <- Ha.
Qed.

Lemma prefix_true (p s : string) :
  String.prefix p s = true <-> exists r, s = p +:+ r.
Proof.
  revert s; induction p as [|a p IH]; intros s.
  - destruct s; simpl; split; eauto.
  - destruct s as [|c s]; simpl.
    + split; [discriminate | intros [r Hr]; discriminate].
    + destruct (ascii_dec a c) as [->|Hne].
      * rewrite IH. split; intros [r Hr]; exists r; congruence.
      * split; [discriminate | intros [r Hr]; congruence].
Qed.

Lemma prefix_length (p s : string) :
  String.prefix p s = true -> String.length p <= String.length s.
Proof.
  intros [r ->]%prefix_true. rewrite length_app; lia.
Qed.

Lemma mem_true (c : ascii) (s : string) :
  mem c s = true <-> exists a b, s = a +:+ String c b.
Proof.
  induction s as [|x s IH]; simpl.
  - split; [discriminate | intros (a & b & H); destruct a; discriminate].
  - rewrite orb_true_iff, IH, Ascii.eqb_eq. split.
    + intros [->|(a & b & ->)]; [now exists "", s | now exists (String x a), b].
    + intros ([|y a] & b & H); simpl in H; injection H as -> ->; eauto.
Qed.

Lemma contains_refl (s : string) : contains s s.
Proof. exists "", "". simpl. now rewrite app_nil_r. Qed.

Lemma contains_app (t a s b : string) :
  contains t s -> contains t (a +:+ s +:+ b).
Proof.
  intros (x & y & ->). exists (a +:+ x), (y +:+ b).
  now rewrite !app_assoc.
Qed.

Lemma contains_cons (t : string) (c : ascii) (s : string) :
  contains t s -> contains t (String c s).
Proof.
  intros H. apply (contains_app t (String c "") s "") in H.
  now rewrite app_nil_r in H.
Qed.

Lemma contains_suffix (t a s : string) : contains t s -> contains t (a +:+ s).
Proof.
  intros H. apply (contains_app t a s "") in H. now rewrite app_nil_r in H.
Qed.

Lemma contains_drop (t : string) (n : nat) (s : string) :
  contains t (drop n s) -> contains t s.
Proof.
  intros H. destruct (drop_suffix n s) as [a Ha]. rewrite Ha.
  now apply contains_suffix.
Qed.

Lemma contains_prefix (t s : string) :
  String.prefix t s = true -> contains t s.
Proof. intros [r ->]%prefix_true. now exists "", r. Qed.

Lemma contains_cons_inv (t : string) (c : ascii) (s : string) :
  contains t (String c s) ->
  String.prefix t (String c s) = true \/ contains t s.
Proof.
  intros ([|x a] & b & H); simpl in H.
  - left. apply prefix_true. eauto.
  - right. injection H as _ ->. now exists a, b.
Qed.

Lemma containsb_true (t s : string) : containsb t s = true <-> contains t s.
Proof.
  induction s as [|c s IH].
  - change (containsb t "") with (String.prefix t "" || false).
    rewrite orb_false_r. split; [apply contains_prefix|].
    intros ([|x a] & b & H); [|discriminate]. apply prefix_true; eauto.
  - change (containsb t (String c s))
      with (String.prefix t (String c s) || containsb t s).
    rewrite orb_true_iff, IH. split.
    + intros [H|H]; [now apply contains_prefix | now apply contains_cons].
    + apply contains_cons_inv.
Qed.

Lemma containsb_false (t s : string) : containsb t s = false -> ~ contains t s.
Proof. intros H Hc%containsb_true. congruence. Qed.

(** *** [trim] *)

Lemma trimStart_suffix (s : string) : exists a, s = a +:+ trimStart s.
Proof.
  induction s as [|c s [a Ha]]; [now exists ""|]. simpl.
  destruct (is_space c); [|now exists ""].
  exists (String c a). simpl. now rewrite <- Ha.
Qed.

Lemma trimEnd_prefix (s : string) : exists b, s = trimEnd s +:+ b.
Proof.
  induction s as [|c s [b Hb]]; [now exists ""|]. simpl.
  destruct (trimEnd s) as [|x t] eqn:E.
  - destruct (is_space c); [now exists (String c s)|].
    exists s. reflexivity.
  - exists b. simpl. simpl in Hb. now rewrite <- Hb.
Qed.

Lemma trim_contains (t s : string) : contains t (trim s) -> contains t s.
Proof.
  unfold trim. intros H.
  destruct (trimStart_suffix s) as [a Ha].
  destruct (trimEnd_prefix (trimStart s)) as [b Hb].
  rewrite Ha, Hb. now apply contains_app.
Qed.

Lemma trimStart_keeps (c : ascii) (a b : string) :
  is_space c = false ->
  exists a', trimStart (a +:+ String c b) = a' +:+ String c b.
Proof.
  intros Hc. induction a as [|x a [a' IH]]; simpl.
  - rewrite Hc. now exists "".
  - destruct (is_space x); [now exists a'|]. now exists (String x a).
Qed.

Lemma trimEnd_keeps (c : ascii) (a b : string) :
  is_space c = false ->
  exists b', trimEnd (a +:+ String c b) = a +:+ String c b'.
Proof.
  intros Hc. induction a as [|x a [b' IH]]; simpl.
  - destruct (trimEnd b) as [|y t]; [rewrite Hc|]; eauto.
  - rewrite IH. destruct a; simpl; eauto.
Qed.

Lemma trim_keeps (c : ascii) (s : string) :
  is_space c = false ->
  contains (String c "") s -> contains (String c "") (trim s).
Proof.
  intros Hc (a & b & ->). simpl. unfold trim.
  destruct (trimStart_keeps c a b Hc) as [a' ->].
  destruct (trimEnd_keeps c a' b Hc) as [b' ->].
  now exists a', b'.
Qed.

End StrFacts.

(** ** Facts about the replacement of a literal pattern *)

Module RegexFacts.
Import Str StrFacts.

Local Arguments String.append : simpl nomatch.

Lemma prefix_nil (s : string) : String.prefix "" s = true.
Proof. now destruct s. Qed.

Lemma prefix_cons (a c : ascii) (p s : string) :
  String.prefix (String a p) (String c s)
  = Ascii.eqb a c && String.prefix p s.
Proof.
  simpl. destruct (ascii_dec a c) as [->|Hne].
  - now rewrite Ascii.eqb_refl.
  - apply Ascii.eqb_neq in Hne. now rewrite Hne.
Qed.

Lemma lit_match_prefix (pat s : string) (n : nat) (k : cont) :
  lit_match pat s n k
  = if String.prefix pat s
    then k (drop (String.length pat) s) (n + String.length pat)
    else None.
Proof.
  revert s n; induction pat as [|a pat IH]; intros s n.
  - rewrite prefix_nil, drop_0. simpl. now rewrite Nat.add_0_r.
  - destruct s as [|c s]; [reflexivity|].
    rewrite prefix_cons. simpl lit_match.
    destruct (Ascii.eqb a c); [|reflexivity].
    rewrite IH. simpl. now rewrite Nat.add_succ_r.
Qed.

Lemma exec_lit (pat s : string) :
  exec (Lit pat) s
  = if String.prefix pat s then Some (String.length pat) else None.
Proof. unfold exec. simpl. now rewrite lit_match_prefix. Qed.

Lemma replace_from_skip (r : regex) (rep : string) (k : nat) (s : string) :
  k <= String.length s ->
  replace_from r rep k s = replace_all r rep (drop k s).
Proof.
  unfold replace_all. revert k; induction s as [|c s IH]; intros k Hk.
  - simpl in Hk. assert (k = 0) as -> by lia. reflexivity.
  - destruct k as [|k]; [reflexivity|]. simpl in *. apply IH. lia.
Qed.

Section Literal.

Variables (p0 : ascii) (pt rep : string).

Local Abbreviation pat := (String p0 pt).
Local Abbreviation out := (replace_all (Lit pat) rep).

Lemma replace_lit_nil : out "" = "".
Proof. reflexivity. Qed.

Lemma replace_lit_cons (c : ascii) (s : string) :
  out (String c s)
  = if String.prefix pat (String c s)
    then rep +:+ out (drop (String.length pt) s)
    else String c (out s).
Proof.
  unfold replace_all at 1. simpl replace_from.
  rewrite exec_lit.
  destruct (String.prefix pat (String c s)) eqn:E; [|reflexivity].
  simpl String.length. cbv iota.
  rewrite (replace_from_skip (Lit pat) rep (String.length pt) s);
    [reflexivity|].
  apply prefix_length in E. simpl in E. lia.
Qed.

(** A match that starts before a character [c] absent from the tail of the
    pattern cannot run over it. *)
Lemma prefix_overlap (c : ascii) (p a r : string) :
  String.prefix p (a +:+ String c r) = true ->
  String.length a < String.length p -> mem c p = true.
Proof.
  revert p; induction a as [|y a IH]; intros p Hp Hlen.
  - destruct p as [|x p]; simpl in Hlen; [lia|].
    simpl String.append in Hp. rewrite prefix_cons in Hp.
    apply andb_prop in Hp as [Hx _]. apply Ascii.eqb_eq in Hx as ->.
    simpl. now rewrite Ascii.eqb_refl.
  - destruct p as [|x p]; simpl in Hlen; [lia|].
    simpl String.append in Hp. rewrite prefix_cons in Hp.
    apply andb_prop in Hp as [_ Hp].
    simpl. rewrite (IH p Hp); [apply orb_true_r | lia].
Qed.

(** The scan reaches every occurrence of such a character. *)
Lemma replace_lit_reaches (c : ascii) (a r : string) :
  mem c pt = false ->
  exists a', out (a +:+ String c r) = a' +:+ out (String c r).
Proof.
  intros Hc.
  remember (String.length a) as n eqn:Hn.
  assert (Hle : String.length a <= n) by lia. clear Hn.
  revert a Hle; induction n as [|n IH]; intros a Hle.
  - destruct a; simpl in Hle; [now exists "" | lia].
  - destruct a as [|x a]; [now exists ""|].
    simpl in Hle. simpl String.append. rewrite replace_lit_cons.
    destruct (String.prefix pat (String x (a +:+ String c r))) eqn:E.
    + rewrite prefix_cons in E.
      apply andb_prop in E as [_ E].
      assert (Hlen : String.length pt <= String.length a).
      { destruct (le_lt_dec (String.length pt) (String.length a)) as [H|H];
          [exact H|].
        apply (prefix_overlap c pt a r E) in H. congruence. }
      rewrite drop_app by exact Hlen.
      destruct (IH (drop (String.length pt) a)) as [a' Ha'].
      { pose proof (drop_length (String.length pt) a). lia. }
      rewrite Ha'. exists (rep +:+ a'). now rewrite app_assoc.
    + destruct (IH a) as [a' Ha']; [lia|].
      rewrite Ha'. now exists (String x a').
Qed.

(** When the replacement is one character [r0], a text without [r0] at the
    head of the result was at the head of the input. *)
Lemma replace_lit_prefix (r0 : ascii) (t s : string) :
  rep = String r0 "" -> mem r0 t = false ->
  String.prefix t (out s) = true -> String.prefix t s = true.
Proof.
  intros Hrep. revert s; induction t as [|x t IH]; intros s Hr Hp.
  - apply prefix_nil.
  - simpl in Hr. apply orb_false_elim in Hr as [Hx Ht].
    destruct s as [|c s]; [now rewrite replace_lit_nil in Hp|].
    rewrite replace_lit_cons in Hp.
    destruct (String.prefix pat (String c s)) eqn:E.
    + rewrite Hrep in Hp at 1. simpl String.append in Hp.
      rewrite prefix_cons in Hp. apply andb_prop in Hp as [Hp _].
      apply Ascii.eqb_eq in Hp as ->. now rewrite Ascii.eqb_refl in Hx.
    + rewrite prefix_cons in Hp |- *. apply andb_prop in Hp as [-> Hp].
      simpl. now apply IH.
Qed.

(** ... and a text without [r0] inside the result was inside the input. *)
Lemma replace_lit_contains (r0 : ascii) (t s : string) :
  rep = String r0 "" -> mem r0 t = false ->
  contains t (out s) -> contains t s.
Proof.
  intros Hrep Hr.
  remember (String.length s) as n eqn:Hn.
  assert (Hle : String.length s <= n) by lia. clear Hn.
  revert s Hle; induction n as [|n IH]; intros s Hle Hc.
  - destruct s; simpl in Hle; [exact Hc | lia].
  - destruct s as [|c s]; [exact Hc|]. simpl in Hle.
    rewrite replace_lit_cons in Hc.
    destruct (String.prefix pat (String c s)) eqn:E.
    + rewrite Hrep in Hc at 1. simpl String.append in Hc.
      apply contains_cons_inv in Hc as [Hc|Hc].
      * destruct t as [|x t]; [exists "", (String c s); reflexivity|].
        rewrite prefix_cons in Hc. apply andb_prop in Hc as [Hx _].
        apply Ascii.eqb_eq in Hx as ->. simpl in Hr.
        now rewrite Ascii.eqb_refl in Hr.
      * apply contains_cons, (contains_drop _ (String.length pt)), IH;
          [|exact Hc].
        pose proof (drop_length (String.length pt) s). lia.
    + apply contains_cons_inv in Hc as [Hc|Hc].
      * apply contains_prefix.
        apply (replace_lit_prefix r0 _ (String c s) Hrep Hr).
        now rewrite replace_lit_cons, E.
      * apply contains_cons, IH; [lia | exact Hc].
Qed.

(** No occurrence of the pattern is left when the replacement is a
    character that the pattern does not have. *)
Lemma replace_lit_gone (r0 : ascii) (s : string) :
  rep = String r0 "" -> mem r0 pat = false -> ~ contains pat (out s).
Proof.
  intros Hrep Hr.
  remember (String.length s) as n eqn:Hn.
  assert (Hle : String.length s <= n) by lia. clear Hn.
  revert s Hle; induction n as [|n IH]; intros s Hle Hc.
  - destruct s; simpl in Hle; [|lia].
    rewrite replace_lit_nil in Hc. destruct Hc as ([|] & b & H); discriminate.
  - destruct s as [|c s].
    { rewrite replace_lit_nil in Hc.
      destruct Hc as ([|] & b & H); discriminate. }
    simpl in Hle.
    assert (Hhead : String.prefix pat (out (String c s)) = false).
    { destruct (String.prefix pat (out (String c s))) eqn:E; [|reflexivity].
      pose proof (replace_lit_prefix r0 _ _ Hrep Hr E) as E'.
      rewrite replace_lit_cons, E' in E. rewrite Hrep in E at 1.
      simpl String.append in E.
      rewrite prefix_cons in E.
      apply andb_prop in E as [Hx _]. apply Ascii.eqb_eq in Hx as ->.
      simpl in Hr. now rewrite Ascii.eqb_refl in Hr. }
    rewrite replace_lit_cons in Hc, Hhead.
    destruct (String.prefix pat (String c s)) eqn:E.
    + rewrite Hrep in Hc at 1. rewrite Hrep in Hhead at 1.
      simpl String.append in Hc, Hhead.
      apply contains_cons_inv in Hc as [Hc|Hc]; [congruence|].
      apply (IH (drop (String.length pt) s)); [|exact Hc].
      pose proof (drop_length (String.length pt) s). lia.
    + apply contains_cons_inv in Hc as [Hc|Hc]; [congruence|].
      apply (IH s); [lia | exact Hc].
Qed.

End Literal.

Lemma replace_first_eq (r : regex) (rep s : string) :
  replace_first r rep s
  = match exec r s with
    | Some n => rep +:+ drop n s
    | None =>
        match s with
        | "" => ""
        | String c s' => String c (replace_first r rep s')
        end
    end.
Proof. destruct s; reflexivity. Qed.

Lemma replace_all_class_cons (p : ascii -> bool) (rep : string) (c : ascii)
  (s : string) :
  replace_all (Class p) rep (String c s)
  = if p c then rep +:+ replace_all (Class p) rep s
    else String c (replace_all (Class p) rep s).
Proof.
  unfold replace_all. simpl replace_from. unfold exec. simpl rmatch.
  destruct (p c); reflexivity.
Qed.

(** A replacement leaves a text alone when no position of it starts a
    match. *)
Lemma replace_all_no_match (r : regex) (rep s : string) :
  exec r "" = None ->
  (forall c t, mem c s = true -> exec r (String c t) = None) ->
  replace_all r rep s = s.
Proof.
  intros Hnil. unfold replace_all. induction s as [|c s IH]; intros H.
  - simpl. now rewrite Hnil.
  - simpl. rewrite (H c s) by (simpl; now rewrite Ascii.eqb_refl).
    rewrite IH; [reflexivity|].
    intros x t Hx. apply H. simpl. rewrite Hx. apply orb_true_r.
Qed.

End RegexFacts.

(** ** Titles, paths and tags *)

Section TextClaims.
Import Str StrFacts RegexFacts.

Local Arguments String.append : simpl nomatch.

Lemma sanitizeTitle_cons (c : ascii) (s : string) :
  sanitizeTitle (String c s) = String (dash_unsafe c) (sanitizeTitle s).
Proof.
  unfold sanitizeTitle, one_of, dash_unsafe.
  rewrite replace_all_class_cons.
  destruct (mem c unsafe_chars); reflexivity.
Qed.

Lemma sanitizeTitle_get (title : string) (i : nat) :
  String.get i (sanitizeTitle title) = dash_unsafe <$> String.get i title.
Proof.
  revert i; induction title as [|c s IH]; intros i; [reflexivity|].
  rewrite sanitizeTitle_cons. destruct i as [|i]; simpl; [reflexivity|].
  apply IH.
Qed.

Lemma sanitizeTitle_length (title : string) :
  String.length (sanitizeTitle title) = String.length title.
Proof.
  induction title as [|c s IH]; [reflexivity|].
  rewrite sanitizeTitle_cons. simpl. now rewrite IH.
Qed.

Lemma unsafe_chars_nine (c : ascii) :
  mem c unsafe_chars = true <->
  In c ["\"; "/"; ":"; "*"; "?"; dquote; "<"; ">"; "|"]%char.
Proof.
  unfold unsafe_chars. simpl. rewrite !orb_true_iff, !Ascii.eqb_eq.
  intuition congruence.
Qed.

(** [replace] with a string pattern changes the first occurrence and
    nothing after it. *)
Lemma replace_first_space (a b : string) :
  mem " " a = false ->
  replace_first (Lit " ") "-" (a +:+ " " +:+ b) = a +:+ "-" +:+ b.
Proof.
  induction a as [|x a IH]; intros Ha.
  - simpl String.append. rewrite replace_first_eq, exec_lit, prefix_cons.
    rewrite prefix_nil. reflexivity.
  - change (mem " " (String x a))
      with (Ascii.eqb " " x || mem " " a) in Ha.
    apply orb_false_elim in Ha as [Hx Ha].
    simpl String.append. rewrite replace_first_eq, exec_lit, prefix_cons, Hx.
    cbv iota. simpl andb. cbv iota. f_equal. exact (IH Ha).
Qed.

End TextClaims.

(** ** The hand-rolled converter *)

Section Converter.
Import Str StrFacts RegexFacts.

Lemma exec_starts_with (a : ascii) (r : regex) (c : ascii) (t : string) :
  Ascii.eqb a c = false -> exec (Seq (chr a) r) (String c t) = None.
Proof. intros H. unfold exec, chr. simpl. now rewrite H. Qed.

Lemma mem_neq (a c : ascii) (s : string) :
  mem a s = false -> mem c s = true -> Ascii.eqb a c = false.
Proof.
  intros Ha Hc. destruct (Ascii.eqb a c) eqn:E; [|reflexivity].
  apply Ascii.eqb_eq in E as ->. congruence.
Qed.

(** A text without [<] has no tag to strip. *)
Lemma stripTags_plain (html : string) :
  mem "<" html = false -> stripTags html = html.
Proof.
  intros H. unfold stripTags.
  assert (Hbr : replace_all re_br nl html = html).
  { apply replace_all_no_match; [reflexivity|].
    intros c t Hc. apply exec_starts_with. now apply (mem_neq _ _ html). }
  rewrite Hbr. apply replace_all_no_match; [reflexivity|].
  intros c t Hc. apply exec_starts_with. now apply (mem_neq _ _ html).
Qed.

Lemma nbsp_step (s : string) :
  contains "&amp;lt;" s ->
  contains "&amp;lt;" (replace_all (Lit "&nbsp;") " " s).
Proof.
  intros (a & b & ->).
  destruct (replace_lit_reaches "&" "nbsp;" " " "&" a ("amp;lt;" +:+ b))
    as [a' Ha]; [reflexivity|].
  change (a +:+ "&amp;lt;" +:+ b) with (a +:+ String "&" ("amp;lt;" +:+ b)).
  rewrite Ha. now exists a', (replace_all (Lit "&nbsp;") " " b).
Qed.

Lemma amp_step (s : string) :
  contains "&amp;lt;" s ->
  contains "&lt;" (replace_all (Lit "&amp;") "&" s).
Proof.
  intros (a & b & ->).
  destruct (replace_lit_reaches "&" "amp;" "&" "&" a ("amp;lt;" +:+ b))
    as [a' Ha]; [reflexivity|].
  change (a +:+ "&amp;lt;" +:+ b) with (a +:+ String "&" ("amp;lt;" +:+ b)).
  rewrite Ha. now exists a', (replace_all (Lit "&amp;") "&" b).
Qed.

Lemma lt_step (s : string) :
  contains "&lt;" s -> contains "<" (replace_all (Lit "&lt;") "<" s).
Proof.
  intros (a & b & ->).
  destruct (replace_lit_reaches "&" "lt;" "<" "&" a ("lt;" +:+ b))
    as [a' Ha]; [reflexivity|].
  change (a +:+ "&lt;" +:+ b) with (a +:+ String "&" ("lt;" +:+ b)).
  rewrite Ha. now exists a', (replace_all (Lit "&lt;") "<" b).
Qed.

Lemma gt_step (s : string) :
  contains "<" s -> contains "<" (replace_all (Lit "&gt;") ">" s).
Proof.
  intros (a & b & ->).
  destruct (replace_lit_reaches "&" "gt;" ">" "<" a b) as [a' Ha];
    [reflexivity|].
  change (a +:+ "<" +:+ b) with (a +:+ String "<" b).
  rewrite Ha. now exists a', (replace_all (Lit "&gt;") ">" b).
Qed.

End Converter.

(** ** The engine *)

Section Engine.

Variable network : Request.t -> Reply.
Variable latency : Request.t -> Z.
Variable turndown : string -> string.
Variable numberToString : Q -> string.

Local Open Scope plugin_scope.

Lemma truthy_false (s : string) : truthy s = false <-> s = "".
Proof. destruct s; simpl; split; congruence. Qed.

Lemma truthy_true (s : string) : truthy s = true <-> s <> "".
Proof. destruct s; simpl; split; congruence. Qed.

Lemma credentials_missing_test (s : WallabagSyncSettings) :
  negb (truthy (instanceUrl s)) || negb (truthy (clientId s))
  || negb (truthy (clientSecret s)) || negb (truthy (username s))
  || negb (truthy (password s)) = true
  <-> credentials_missing s.
Proof.
  unfold credentials_missing.
  rewrite !orb_true_iff, !negb_true_iff, !truthy_false. tauto.
Qed.

Lemma credentials_missing_dec (s : WallabagSyncSettings) :
  credentials_missing s \/ ~ credentials_missing s.
Proof.
  rewrite <- credentials_missing_test.
  destruct (_ || _); [now left | right; congruence].
Qed.

(** *** [authenticate] *)

Lemma authenticate_missing (w : World) :
  credentials_missing (settings w) ->
  authenticate network latency w
  = (Throw (Err "Missing credentials"),
     with_notice "Please fill in all Wallabag credentials in the settings." w).
Proof.
  intros H%credentials_missing_test. unfold authenticate. run.
  now rewrite H.
Qed.

Lemma authenticate_complete (w : World) :
  ~ credentials_missing (settings w) ->
  authenticate network latency w
  = let req := token_request (settings w) in
    let w1 := with_request req (latency req)
                (with_notice "Authenticating with Wallabag..." w) in
    match network req with
    | Rejected e => (Throw e, w1)
    | Responded resp =>
        if Response.ok resp then
          let data := Response.json resp in
          let s' :=
            set_tokenExpiry (clock w1 + Json.expires_in data * 1000)%Z
              (set_refreshToken (Json.refresh_token data)
                 (set_accessToken (Json.access_token data) (settings w))) in
          (Return tt, with_saved s' (with_settings (fun _ => s') w1))
        else
          (Throw (Err (Response.text resp)),
           with_notice "Failed to authenticate with Wallabag." w1)
    end.
Proof.
  intros H. rewrite <- credentials_missing_test in H.
  apply not_true_is_false in H.
  unfold authenticate. run. rewrite H. unfold fetch. simpl.
  destruct (network _) as [e|resp]; [reflexivity|].
  destruct (Response.ok resp); reflexivity.
Qed.

Lemma authenticate_enters (w : World) :
  authenticate_entered w (snd (authenticate network latency w)).
Proof.
  unfold authenticate_entered, authenticate_notice.
  destruct (credentials_missing_dec (settings w)) as [H|H].
  - rewrite authenticate_missing by exact H. simpl. eauto.
  - rewrite authenticate_complete by exact H. simpl.
    exists "Authenticating with Wallabag...".
    destruct (network _) as [e|resp]; simpl; [exists []; auto|].
    destruct (Response.ok resp); simpl; [exists []; auto|].
    exists ["Failed to authenticate with Wallabag."].
    rewrite <- app_assoc. auto.
Qed.

(** What [authenticate] leaves alone: the vault, the console, the
    watermark; the requests it sends are [POST] requests. *)
Lemma authenticate_frame (w : World) :
  let w' := snd (authenticate network latency w) in
  vault w' = vault w /\ console w' = console w
  /\ since (settings w') = since (settings w)
  /\ (saved w' = saved w \/ saved w' = settings w')
  /\ exists new,
       requests w' = requests w ++ new
       /\ Forall (fun r => Request.method r = POST) new.
Proof.
  destruct (credentials_missing_dec (settings w)) as [H|H].
  - rewrite authenticate_missing by exact H. simpl.
    repeat split; auto. exists []. now rewrite app_nil_r.
  - rewrite authenticate_complete by exact H. simpl.
    assert (Hnew : exists new,
               requests w ++ [token_request (settings w)] = requests w ++ new
               /\ Forall (fun r => Request.method r = POST) new).
    { exists [token_request (settings w)]. split; [reflexivity|].
      now repeat constructor. }
    destruct (network _) as [e|resp]; simpl; [repeat split; auto|].
    destruct (Response.ok resp); simpl; repeat split; auto.
Qed.

(** *** [ensureTokenValid] *)

Lemma token_stale_test (w : World) :
  negb (truthy (accessToken (settings w)))
  || number_gt (clock w) (number_sub (tokenExpiry (settings w)) (60 * 1000))
     = true
  <-> token_stale w.
Proof.
  unfold token_stale.
  rewrite orb_true_iff, negb_true_iff, truthy_false.
  destruct (tokenExpiry (settings w)) as [expiry|]; simpl.
  - rewrite Z.ltb_lt. split; (intros [H|H]; [now left | right]).
    + exists expiry. split; [reflexivity | lia].
    + destruct H as (e & [= <-] & H). lia.
  - split; (intros [H|H]; [now left |]); [discriminate|].
    now destruct H as (e & [=] & _).
Qed.

Lemma ensureTokenValid_stale (w : World) :
  token_stale w ->
  ensureTokenValid network latency w = authenticate network latency w.
Proof.
  intros H%token_stale_test. unfold ensureTokenValid. run. now rewrite H.
Qed.

Lemma ensureTokenValid_fresh (w : World) :
  ~ token_stale w -> ensureTokenValid network latency w = (Return tt, w).
Proof.
  intros H. rewrite <- token_stale_test in H. apply not_true_is_false in H.
  unfold ensureTokenValid. run. now rewrite H.
Qed.

Lemma token_stale_dec (w : World) : token_stale w \/ ~ token_stale w.
Proof.
  rewrite <- token_stale_test. destruct (_ || _); [now left | right; congruence].
Qed.

Lemma ensureTokenValid_frame (w : World) :
  let w' := snd (ensureTokenValid network latency w) in
  vault w' = vault w /\ console w' = console w
  /\ since (settings w') = since (settings w)
  /\ (saved w' = saved w \/ saved w' = settings w')
  /\ exists new,
       requests w' = requests w ++ new
       /\ Forall (fun r => Request.method r = POST) new.
Proof.
  destruct (token_stale_dec w) as [H|H].
  - rewrite ensureTokenValid_stale by exact H. apply authenticate_frame.
  - rewrite ensureTokenValid_fresh by exact H. simpl.
    repeat split; auto. exists []. now rewrite app_nil_r.
Qed.

(** *** The fetch loop *)

Lemma with_requests_frame (l : list Request.t) (w : World) :
  let w' := with_requests latency l w in
  settings w' = settings w /\ saved w' = saved w /\ vault w' = vault w
  /\ notices w' = notices w /\ console w' = console w
  /\ requests w' = requests w ++ l.
Proof.
  revert w; induction l as [|r l IH]; intros w; simpl.
  - now rewrite app_nil_r.
  - destruct (IH (with_request r (latency r) w)) as (H1 & H2 & H3 & H4 & H5 & H6).
    unfold with_requests in *. rewrite H1, H2, H3, H4, H5, H6. simpl.
    now rewrite <- app_assoc.
Qed.

Lemma issued_app (w w' : World) (new : list Request.t) :
  requests w' = requests w ++ new -> issued w w' = new.
Proof. intros H. unfold issued. rewrite H. apply drop_app_length. Qed.

Lemma fetch_loop_S (fuel : nat) (url tok : string) (snc : Q)
  (acc : list Article.t) (page : nat) (w : World) :
  fetch_loop network latency numberToString (S fuel) url tok snc acc page w
  = let req := entries_request numberToString url tok snc page
                 (onlyStarred (settings w)) in
    let w1 := with_request req (latency req) w in
    match network req with
    | Rejected e => (Throw e, w1)
    | Responded resp =>
        if Response.ok resp then
          let articles := acc ++ embedded_items (Response.json resp) in
          if has_next (Response.json resp)
          then fetch_loop network latency numberToString fuel url tok snc
                 articles (S page) w1
          else (Return articles, w1)
        else
          (Throw (Err ("Failed to fetch articles: " +:+ Response.text resp)),
           w1)
    end.
Proof.
  simpl. unfold bind, gets, fetch. simpl.
  destruct (network _) as [e|resp]; [reflexivity|].
  destruct (Response.ok resp); simpl; [|reflexivity].
  destruct (has_next (Response.json resp)); reflexivity.
Qed.

Lemma fetch_loop_run (fuel : nat) (url tok : string) (snc : Q)
  (acc : list Article.t) (page : nat) (w : World) :
  exists new,
    snd (fetch_loop network latency numberToString fuel url tok snc acc
           page w) = with_requests latency new w
    /\ (forall i r, new !! i = Some r ->
          r = entries_request numberToString url tok snc (page + i)
                (onlyStarred (settings w)))
    /\ (forall r resp, In r new -> network r = Responded resp ->
          Response.ok resp = false ->
          fst (fetch_loop network latency numberToString fuel url tok snc acc
                 page w)
          = Throw (Err ("Failed to fetch articles: " +:+ Response.text resp))).
Proof.
  revert acc page w; induction fuel as [|fuel IH]; intros acc page w.
  - exists []. simpl. repeat split; [intros i r H; destruct i; discriminate
                                    | intros r resp []].
  - rewrite fetch_loop_S. cbv zeta.
    remember (entries_request numberToString url tok snc page
                (onlyStarred (settings w))) as req eqn:Hreq0.
    assert (Hone : forall i r, [req] !! i = Some r ->
              r = entries_request numberToString url tok snc (page + i)
                    (onlyStarred (settings w))).
    { intros [|i] r H; simpl in H; [|destruct i; discriminate].
      injection H as <-. now rewrite Nat.add_0_r. }
    destruct (network req) as [e|resp0] eqn:Enet.
    + exists [req]. simpl. repeat split; [exact Hone|].
      intros r resp [<-|[]] Hr _. congruence.
    + destruct (Response.ok resp0) eqn:Eok; simpl.
      * destruct (has_next (Response.json resp0)).
        -- destruct (IH (acc ++ embedded_items (Response.json resp0)) (S page)
                       (with_request req (latency req) w))
             as (new & Hw & Hreq & Hbad).
           exists (req :: new). repeat split.
           ++ exact Hw.
           ++ intros [|i] r H; simpl in H.
              ** injection H as <-. now rewrite Nat.add_0_r.
              ** rewrite (Hreq i r H). simpl. now rewrite Nat.add_succ_r.
           ++ intros r resp [<-|Hin] Hr Hok; [congruence|].
              now apply (Hbad r).
        -- exists [req]. simpl. repeat split; [exact Hone|].
           intros r resp [<-|[]] Hr Hok. congruence.
      * exists [req]. simpl. repeat split; [exact Hone|].
        intros r resp [<-|[]] Hr _. congruence.
Qed.

(** One turn is enough when the answer has no [next] link. *)
Lemma fetch_loop_last (fuel : nat) (url tok : string) (snc : Q)
  (acc : list Article.t) (page : nat) (w : World) (resp : Response.t) :
  let req := entries_request numberToString url tok snc page
               (onlyStarred (settings w)) in
  network req = Responded resp -> Response.ok resp = true ->
  has_next (Response.json resp) = false ->
  fetch_loop network latency numberToString (S fuel) url tok snc acc page w
  = (Return (acc ++ embedded_items (Response.json resp)),
     with_request req (latency req) w).
Proof.
  intros req Hnet Hok Hnext. rewrite fetch_loop_S. cbv zeta. fold req.
  now rewrite Hnet, Hok, Hnext.
Qed.

(** *** [fetchArticles] *)

Lemma fetchArticles_eq (fuel : nat) (w : World) :
  fetchArticles network latency numberToString fuel w
  = let s := settings w in
    let newSince := (inject_Z (clock w) / 1000)%Q in
    match fetch_loop network latency numberToString fuel (instanceUrl s)
            (accessToken s) (since s) [] 1
            (with_notice "Fetching Wallabag articles..." w) with
    | (Return articles, w1) =>
        (Return articles,
         with_saved (set_since newSince (settings w1))
           (with_settings (set_since newSince) w1))
    | (Throw e, w1) => (Throw e, w1)
    | (Pending, w1) => (Pending, w1)
    end.
Proof.
  unfold fetchArticles. run.
  destruct (fetch_loop _ _ _ _ _ _ _ _ _ _) as [[articles|e|] w1]; reflexivity.
Qed.

(** *** Methods that only touch the vault, the notices and the console *)

Lemma local_bind {A B} (m : M A) (k : A -> M B) :
  local m -> (forall a, local (k a)) -> local (bind m k).
Proof.
  intros Hm Hk w. unfold bind. specialize (Hm w).
  destruct (m w) as [[a|e|] w1]; simpl in Hm; try exact Hm.
  destruct (Hk a w1) as (H1 & H2 & H3 & H4).
  destruct Hm as (G1 & G2 & G3 & G4).
  rewrite H1, H2, H3, H4. auto.
Qed.

Lemma local_for_of {A} (l : list A) (f : A -> M unit) :
  (forall a, local (f a)) -> local (for_of l f).
Proof.
  intros Hf. induction l as [|a l IH]; simpl.
  - intros w. simpl. auto.
  - apply local_bind; auto.
Qed.

Lemma local_Notice (msg : string) : local (Notice msg).
Proof. intros w. simpl. auto. Qed.

Lemma local_console_error (e : Error) : local (console_error e).
Proof. intros w. simpl. auto. Qed.

(** The parent of the path of a note is the folder of the notes: the
    sanitized title has no ['/']. *)
Lemma sanitizeTitle_no_slash (title : string) :
  Str.mem "/" (sanitizeTitle title) = false.
Proof.
  induction title as [|c t IH]; [reflexivity|].
  rewrite sanitizeTitle_cons. change (Str.mem "/" (String ?x ?r))
    with (Ascii.eqb "/" x || Str.mem "/" r). rewrite IH, orb_false_r.
  unfold dash_unsafe. destruct (Str.mem c unsafe_chars) eqn:E; [reflexivity|].
  destruct (Ascii.eqb "/" c) eqn:F; [|reflexivity].
  apply Ascii.eqb_eq in F. subst c. vm_compute in E. discriminate.
Qed.

Lemma mem_slash_md (s : string) :
  Str.mem "/" s = false -> Str.mem "/" (s +:+ ".md") = false.
Proof.
  induction s as [|c s IH]; [reflexivity|].
  change (Str.mem "/" (String c s)) with (Ascii.eqb "/" c || Str.mem "/" s).
  change (Str.mem "/" (String c s +:+ ".md"))
    with (Ascii.eqb "/" c || Str.mem "/" (s +:+ ".md")).
  intros [H1 H2]%orb_false_iff. now rewrite H1, IH.
Qed.

Lemma mem_slash_join (folder name : string) :
  Str.mem "/" (folder +:+ "/" +:+ name) = true.
Proof.
  induction folder as [|c f IH]; [reflexivity|].
  change (Str.mem "/" (String c f +:+ "/" +:+ name))
    with (Ascii.eqb "/" c || Str.mem "/" (f +:+ "/" +:+ name)).
  rewrite IH. apply orb_true_r.
Qed.

Lemma dirname_join (folder name : string) :
  Str.mem "/" name = false -> Str.dirname (folder +:+ "/" +:+ name) = folder.
Proof.
  intros H. induction folder as [|c f IH].
  - change (Str.dirname ("" +:+ "/" +:+ name))
      with (if Str.mem "/" name then String "/" (Str.dirname name) else "").
    now rewrite H.
  - change (Str.dirname (String c f +:+ "/" +:+ name))
      with (if Str.mem "/" (f +:+ "/" +:+ name)
            then String c (Str.dirname (f +:+ "/" +:+ name)) else "").
    now rewrite mem_slash_join, IH.
Qed.

Lemma dirname_notePath (folder title : string) :
  Str.dirname (notePath folder title) = folder.
Proof.
  apply dirname_join, mem_slash_md, sanitizeTitle_no_slash.
Qed.

Lemma createOrUpdateArticleNote_eq (article : Article.t) (folder : string)
  (w : World) :
  createOrUpdateArticleNote turndown numberToString article folder w
  = let filePath := notePath folder (Article.title article) in
    let noteContent := articleToMarkdown turndown numberToString article in
    let written :=
      (Return tt, with_vault (<[filePath := TFile noteContent]> (vault w)) w) in
    match vault w !! filePath with
    | Some TFolder => (Throw (Err "File already exists."), w)
    | Some (TFile _) => written
    | None =>
        if is_folder (vault w) folder then written
        else (Throw (NoFolder filePath), w)
    end.
Proof.
  unfold createOrUpdateArticleNote, getAbstractFileByPath, bind, gets.
  cbv zeta. fold (notePath folder (Article.title article)).
  destruct (vault w !! notePath folder (Article.title article))
    as [[d|]|] eqn:E; unfold vault_modify, vault_create, update;
    rewrite ?E, ?dirname_notePath; reflexivity.
Qed.

Lemma local_createOrUpdateArticleNote (article : Article.t)
  (folder : string) :
  local (createOrUpdateArticleNote turndown numberToString article folder).
Proof.
  intros w. rewrite createOrUpdateArticleNote_eq. cbv zeta.
  destruct (vault w !! _) as [[d|]|]; simpl; auto.
  destruct (is_folder _ _); simpl; auto.
Qed.

Lemma local_ensureFolderExists (folder : string) :
  local (ensureFolderExists folder).
Proof.
  intros w. unfold ensureFolderExists, adapter_exists, adapter_mkdir. run.
  destruct (vault w !! folder); simpl; auto.
Qed.

Lemma local_write_notes (articles : list Article.t) :
  local (write_notes turndown numberToString articles).
Proof.
  unfold write_notes. apply local_bind; [intros w; simpl; auto|].
  intros s. apply local_bind; [apply local_ensureFolderExists|].
  intros _. apply local_bind; [|intros _; apply local_Notice].
  apply local_for_of. intros a. apply local_createOrUpdateArticleNote.
Qed.

Lemma local_sync_failed (e : Error) : local (sync_failed e).
Proof.
  unfold sync_failed. apply local_bind; [apply local_console_error|].
  intros _. apply local_Notice.
Qed.

Lemma local_try_catch {A} (m : M A) (h : Error -> M A) :
  local m -> (forall e, local (h e)) -> local (try_catch m h).
Proof.
  intros Hm Hh w. unfold try_catch. specialize (Hm w).
  destruct (m w) as [[a|e|] w1]; simpl in Hm; try exact Hm.
  destruct (Hh e w1) as (H1 & H2 & H3 & H4).
  destruct Hm as (G1 & G2 & G3 & G4).
  rewrite H1, H2, H3, H4. auto.
Qed.

(** *** [syncWallabagArticles], phase by phase *)

Lemma sync_phases (fuel : nat) (w : World) :
  syncWallabagArticles network latency turndown numberToString fuel w
  = match ensureTokenValid network latency w with
    | (Return _, w1) =>
        match fetchArticles network latency numberToString fuel w1 with
        | (Return articles, w2) =>
            try_catch (write_notes turndown numberToString articles)
              sync_failed w2
        | (Throw e, w2) => sync_failed e w2
        | (Pending, w2) => (Pending, w2)
        end
    | (Throw e, w1) => sync_failed e w1
    | (Pending, w1) => (Pending, w1)
    end.
Proof.
  unfold syncWallabagArticles, sync_body, try_catch.
  unfold bind at 1.
  destruct (ensureTokenValid network latency w) as [[u|e|] w1];
    [|reflexivity|reflexivity].
  unfold bind at 1.
  destruct (fetchArticles network latency numberToString fuel w1)
    as [[articles|e|] w2]; reflexivity.
Qed.

(** ** Token lifecycle *)

Lemma not_entered_here (w : World) : ~ authenticate_entered w w.
Proof.
  intros (msg & rest & _ & H).
  apply (f_equal (@length string)) in H. rewrite length_app in H.
  simpl in H. lia.
Qed.

(** C4.  [ensureTokenValid] enters [authenticate] if and only if no access
    token is held or the expiry held is a number less than sixty seconds
    ahead of the clock: in that case it is [authenticate], otherwise it
    returns at once and changes nothing.  With a token held, it changes
    nothing when the expiry is sixty seconds ahead or more (so at sixty
    seconds to the millisecond, and at 120 seconds), and when no expiry is
    held. *)
Theorem ensureTokenValid_reauthenticates_iff_stale (w : World) :
  (authenticate_entered w (snd (ensureTokenValid network latency w))
   <-> token_stale w)
  /\ (token_stale w ->
      ensureTokenValid network latency w = authenticate network latency w)
  /\ (~ token_stale w ->
      ensureTokenValid network latency w = (Return tt, w))
  /\ (accessToken (settings w) <> "" ->
      tokenExpiry (settings w) = None
      \/ (exists expiry, tokenExpiry (settings w) = Some expiry
                         /\ (clock w + 60 * 1000 <= expiry)%Z) ->
      ensureTokenValid network latency w = (Return tt, w)).
Proof.
  split; [|split; [apply ensureTokenValid_stale|split;
                   [apply ensureTokenValid_fresh|]]].
  - destruct (token_stale_dec w) as [H|H].
    + rewrite ensureTokenValid_stale by exact H.
      split; [auto | intros _; apply authenticate_enters].
    + rewrite ensureTokenValid_fresh by exact H. simpl.
      split; [intros E; now apply not_entered_here in E | tauto].
  - intros Htok Hexp. apply ensureTokenValid_fresh.
    unfold token_stale. intros [E|(e & E1 & E2)]; [congruence|].
    destruct Hexp as [E|(e' & E3 & E4)]; [congruence|].
    rewrite E1 in E3. injection E3 as <-. lia.
Qed.

(** C9.  With one of the five credentials empty, [authenticate] throws
    "Missing credentials" without sending a request and leaves the settings
    and the persisted data as they were; with all five present it sends one
    request, the [POST] to the token endpoint. *)
Theorem authenticate_checks_credentials_first (w : World) :
  let run := authenticate network latency w in
  (credentials_missing (settings w) ->
   fst run = Throw (Err "Missing credentials")
   /\ issued w (snd run) = []
   /\ settings (snd run) = settings w /\ saved (snd run) = saved w)
  /\ (~ credentials_missing (settings w) ->
      issued w (snd run) = [token_request (settings w)]
      /\ Request.method (token_request (settings w)) = POST
      /\ Request.url (token_request (settings w))
         = instanceUrl (settings w) +:+ "/oauth/v2/token").
Proof.
  split; intros H.
  - rewrite authenticate_missing by exact H. simpl.
    repeat split. apply issued_app. simpl. now rewrite app_nil_r.
  - rewrite authenticate_complete by exact H. cbv zeta.
    repeat split. apply issued_app.
    destruct (network _) as [e|resp]; simpl; [reflexivity|].
    destruct (Response.ok resp); reflexivity.
Qed.

(** ** Fetching *)

Lemma fetchArticles_issued (fuel : nat) (w : World) :
  let s := settings w in
  exists new,
    requests (snd (fetchArticles network latency numberToString fuel w))
    = requests w ++ new
    /\ (forall i r, new !! i = Some r ->
          r = entries_request numberToString (instanceUrl s) (accessToken s)
                (since s) (1 + i) (onlyStarred s))
    /\ (forall r resp, In r new -> network r = Responded resp ->
          Response.ok resp = false ->
          fetchArticles network latency numberToString fuel w
          = (Throw (Err ("Failed to fetch articles: " +:+ Response.text resp)),
             with_requests latency new
               (with_notice "Fetching Wallabag articles..." w))).
Proof.
  cbv zeta. rewrite fetchArticles_eq. cbv zeta.
  destruct (fetch_loop_run fuel (instanceUrl (settings w))
              (accessToken (settings w)) (since (settings w)) [] 1
              (with_notice "Fetching Wallabag articles..." w))
    as (new & Hw & Hreq & Hbad).
  exists new.
  destruct (with_requests_frame new
              (with_notice "Fetching Wallabag articles..." w))
    as (_ & _ & _ & _ & _ & Hr).
  simpl in Hr.
  destruct (fetch_loop _ _ _ _ _ _ _ _ _ _) as [[articles|e|] w1];
    simpl in Hw; subst w1; simpl; (split; [exact Hr|]);
    (split; [exact Hreq|]); intros r resp Hin Hnet Hok;
    specialize (Hbad r resp Hin Hnet Hok); simpl in Hbad; congruence.
Qed.

(** C7.  The [i]-th request that [fetchArticles] sends (counting from 0) is
    a [GET] of the entries listing with [since] the watermark held when the
    method was entered, page [i + 1], [perPage=30], and [starred=1] exactly
    when [onlyStarred] is set; its only header is the bearer authorization
    with the access token held. *)
Theorem fetchArticles_page_request (fuel : nat) (w : World) (i : nat)
  (r : Request.t) :
  let s := settings w in
  issued w (snd (fetchArticles network latency numberToString fuel w)) !! i
  = Some r ->
  Request.method r = GET
  /\ Request.url r
     = instanceUrl s +:+ "/api/entries.json?since="
       +:+ numberToString (since s)
       +:+ "&page=" +:+ numberToString (inject_Z (Z.of_nat (i + 1)))
       +:+ "&perPage=30" +:+ (if onlyStarred s then "&starred=1" else "")
  /\ Request.headers r = [("Authorization", "Bearer " +:+ accessToken s)]
  /\ Request.body r = [].
Proof.
  cbv zeta. intros H.
  destruct (fetchArticles_issued fuel w) as (new & Hreq & Hall & _).
  rewrite (issued_app _ _ _ Hreq) in H. rewrite (Hall i r H).
  replace (1 + i) with (i + 1) by lia.
  unfold entries_request. simpl. repeat split.
  destruct (onlyStarred (settings w)).
  - now rewrite !StrFacts.app_assoc.
  - now rewrite !StrFacts.app_nil_r.
Qed.

(** C8.  When the answer to the first page request is a success without a
    [next] link, [fetchArticles] returns, for any positive fuel, exactly the
    items of that page after exactly that one request; if the page has no
    item the result is the empty list. *)
Theorem fetchArticles_single_page (fuel : nat) (w : World)
  (resp : Response.t) :
  let s := settings w in
  let first := entries_request numberToString (instanceUrl s) (accessToken s)
                 (since s) 1 (onlyStarred s) in
  network first = Responded resp ->
  Response.ok resp = true ->
  has_next (Response.json resp) = false ->
  let run := fetchArticles network latency numberToString (S fuel) w in
  fst run = Return (embedded_items (Response.json resp))
  /\ issued w (snd run) = [first]
  /\ (embedded_items (Response.json resp) = [] -> fst run = Return []).
Proof.
  cbv zeta. intros Hnet Hok Hnext.
  rewrite fetchArticles_eq. cbv zeta.
  rewrite (fetch_loop_last fuel _ _ _ [] 1
             (with_notice "Fetching Wallabag articles..." w) resp
             Hnet Hok Hnext).
  simpl. repeat split.
  - now apply issued_app.
  - intros ->. reflexivity.
Qed.

(** ** The watermark *)

(** [fetchArticles] moves the watermark when, and only when, its loop has
    returned. *)
Lemma fetchArticles_world (fuel : nat) (w : World) :
  let run := fetchArticles network latency numberToString fuel w in
  let newSince := (inject_Z (clock w) / 1000)%Q in
  vault (snd run) = vault w /\ console (snd run) = console w
  /\ match fst run with
     | Return _ =>
         settings (snd run) = set_since newSince (settings w)
         /\ saved (snd run) = set_since newSince (settings w)
     | _ => settings (snd run) = settings w /\ saved (snd run) = saved w
     end.
Proof.
  cbv zeta. rewrite fetchArticles_eq. cbv zeta.
  destruct (fetch_loop_run fuel (instanceUrl (settings w))
              (accessToken (settings w)) (since (settings w)) [] 1
              (with_notice "Fetching Wallabag articles..." w))
    as (new & Hw & _ & _).
  destruct (with_requests_frame new
              (with_notice "Fetching Wallabag articles..." w))
    as (H1 & H2 & H3 & _ & H5 & _).
  simpl in H1, H2, H3, H5.
  destruct (fetch_loop _ _ _ _ _ _ _ _ _ _) as [[articles|e|] w1];
    simpl in Hw; subst w1; simpl; rewrite ?H1, ?H2, ?H3, ?H5; auto.
Qed.

(** The world in which the fetch phase of a sync ends. *)
Lemma sync_after_fetch (fuel : nat) (w : World) :
  let w' := snd (syncWallabagArticles network latency turndown
                   numberToString fuel w) in
  let wf := match ensureTokenValid network latency w with
            | (Return _, w1) =>
                snd (fetchArticles network latency numberToString fuel w1)
            | (_, w1) => w1
            end in
  settings w' = settings wf /\ saved w' = saved wf
  /\ requests w' = requests wf /\ clock w' = clock wf.
Proof.
  cbv zeta. rewrite sync_phases.
  destruct (ensureTokenValid network latency w) as [[u|e|] w1].
  - destruct (fetchArticles network latency numberToString fuel w1)
      as [[articles|e|] w2].
    + apply (local_try_catch (write_notes turndown numberToString articles));
        [apply local_write_notes | apply local_sync_failed].
    + apply (local_sync_failed e w2).
    + simpl. auto.
  - apply (local_sync_failed e w1).
  - simpl. auto.
Qed.

(** C5.  When a page request of a sync is answered with a non-success
    response, [fetchArticles] throws and returns no article: the sync logs
    that error, writes nothing to the vault, and leaves the watermark where
    it was, in the settings and (the persisted data being in step with the
    settings when the sync starts) in the persisted data. *)
Theorem failed_page_keeps_watermark (fuel : nat) (w : World)
  (r : Request.t) (resp : Response.t) :
  let w' := snd (syncWallabagArticles network latency turndown
                   numberToString fuel w) in
  In r (issued w w') -> Request.method r = GET ->
  network r = Responded resp -> Response.ok resp = false ->
  since (saved w) = since (settings w) ->
  (exists w1,
     ensureTokenValid network latency w = (Return tt, w1)
     /\ fst (fetchArticles network latency numberToString fuel w1)
        = Throw (Err ("Failed to fetch articles: " +:+ Response.text resp)))
  /\ console w'
     = console w ++ [Err ("Failed to fetch articles: " +:+ Response.text resp)]
  /\ vault w' = vault w
  /\ since (settings w') = since (settings w)
  /\ since (saved w') = since (saved w).
Proof.
  cbv zeta. intros Hin Hget Hnet Hok Hsaved.
  destruct (sync_after_fetch fuel w) as (Hs & Hp & Hr & _).
  unfold issued in Hin. rewrite Hr in Hin. clear Hr.
  rewrite sync_phases in *.
  pose proof (ensureTokenValid_frame w) as F. cbv zeta in F.
  destruct (ensureTokenValid network latency w) as [[[]|e|] w1];
    simpl in F; destruct F as (Fv & Fc & Fs & Fp & new1 & Fr & Fpost).
  2, 3: rewrite Fr, drop_app_length in Hin;
        apply list_elem_of_In in Hin;
        rewrite Forall_forall in Fpost; apply Fpost in Hin; congruence.
  destruct (fetchArticles_issued fuel w1) as (new2 & Gr & _ & Gbad).
  rewrite Gr, Fr, <- app_assoc, drop_app_length in Hin.
  apply in_app_or in Hin as [Hin|Hin].
  { apply list_elem_of_In in Hin.
    rewrite Forall_forall in Fpost. apply Fpost in Hin. congruence. }
  specialize (Gbad r resp Hin Hnet Hok).
  pose proof (fetchArticles_world fuel w1) as G. cbv zeta in G.
  rewrite Gbad in *. simpl in *.
  destruct G as (Gv & Gc & Gs & Gp).
  destruct (with_requests_frame new2
              (with_notice "Fetching Wallabag articles..." w1))
    as (_ & _ & Wv & _ & Wc & _). simpl in Wv, Wc.
  split; [exists w1; rewrite Gbad; auto|].
  rewrite Wc, Wv, Fc, Fv, Gs, Gp, Fs.
  repeat split.
  destruct Fp as [->| ->]; congruence.
Qed.

(** C1, as the plugin has it.  The watermark, in the settings and in the
    persisted data, takes the value captured on entry of [fetchArticles] as
    soon as the fetch loop has returned, before any note is written, and the
    rest of the sync, whether the notes are written or a write throws, leaves
    it there.  When the token check or the fetch throws, or the loop has not
    finished, the watermark of the settings is the one before the sync, and
    the persisted one is that or the one persisted before. *)
Theorem watermark_moves_when_fetch_returns (fuel : nat) (w : World) :
  let w' := snd (syncWallabagArticles network latency turndown
                   numberToString fuel w) in
  let kept :=
    since (settings w') = since (settings w)
    /\ (since (saved w') = since (saved w)
        \/ since (saved w') = since (settings w)) in
  match ensureTokenValid network latency w with
  | (Return _, w1) =>
      match fst (fetchArticles network latency numberToString fuel w1) with
      | Return _ =>
          since (settings w') = (inject_Z (clock w1) / 1000)%Q
          /\ since (saved w') = (inject_Z (clock w1) / 1000)%Q
      | _ => kept
      end
  | _ => kept
  end.
Proof.
  cbv zeta.
  destruct (sync_after_fetch fuel w) as (Hs & Hp & _ & _).
  rewrite Hs, Hp. clear Hs Hp.
  pose proof (ensureTokenValid_frame w) as F. cbv zeta in F.
  destruct (ensureTokenValid network latency w) as [[u|e|] w1];
    simpl in F; destruct F as (_ & _ & Fs & Fp & _).
  2, 3: split; [exact Fs | destruct Fp as [->| ->]; auto].
  pose proof (fetchArticles_world fuel w1) as G. cbv zeta in G.
  destruct G as (_ & _ & G).
  destruct (fst (fetchArticles network latency numberToString fuel w1));
    destruct G as [-> ->]; simpl; auto;
    (split; [exact Fs | destruct Fp as [->| ->]; auto]).
Qed.

(** ** Notes *)

(** C3.  The note of an article is written exactly when it can be: no
    folder stands at its path and the note, or the folder of the notes, is
    in the vault.  The first run then returns with the note at the path
    derived from the folder and the title, holding the content rendered
    from the article, and a second run, in the world the first one leaves,
    returns too, derives the same path, and overwrites the note with the
    same content: it leaves that world as it is.  (A first run that throws
    changes nothing, and so does the second.) *)
Theorem createOrUpdateArticleNote_idempotent (article : Article.t)
  (folder : string) (w : World) :
  let reconcile :=
    createOrUpdateArticleNote turndown numberToString article folder in
  let filePath := notePath folder (Article.title article) in
  let noteContent := articleToMarkdown turndown numberToString article in
  let first := reconcile w in
  let second := reconcile (snd first) in
  (fst first = Return tt
   <-> can_write (vault w) folder (Article.title article) = true)
  /\ (can_write (vault w) folder (Article.title article) = true ->
      first = (Return tt,
               with_vault (<[filePath := TFile noteContent]> (vault w)) w)
      /\ second = (Return tt, snd first)
      /\ vault (snd first) !! filePath = Some (TFile noteContent)
      /\ vault (snd second) !! filePath = Some (TFile noteContent)
      /\ vault (snd second)
         = <[filePath := TFile noteContent]> (vault (snd first)))
  /\ (can_write (vault w) folder (Article.title article) = false ->
      exists e, first = (Throw e, w) /\ second = (Throw e, w))
  /\ second = first.
Proof.
  cbv zeta. unfold can_write.
  rewrite (createOrUpdateArticleNote_eq article folder w). cbv zeta.
  set (p := notePath folder (Article.title article)).
  set (c := articleToMarkdown turndown numberToString article).
  assert (Hsecond :
            createOrUpdateArticleNote turndown numberToString article folder
              (with_vault (<[p := TFile c]> (vault w)) w)
            = (Return tt, with_vault (<[p := TFile c]> (vault w)) w)).
  { rewrite createOrUpdateArticleNote_eq. cbv zeta. fold p c.
    unfold with_vault. simpl. rewrite lookup_insert_eq, insert_insert_eq.
    reflexivity. }
  pose proof (createOrUpdateArticleNote_eq article folder w) as Hfirst.
  cbv zeta in Hfirst. fold p c in Hfirst.
  destruct (vault w !! p) as [[d|]|] eqn:E;
    [| |destruct (is_folder (vault w) folder) eqn:F]; simpl snd; simpl fst.
  - rewrite Hsecond. simpl. rewrite lookup_insert_eq, insert_insert_eq.
    repeat split; auto; discriminate.
  - rewrite Hfirst. split; [split; discriminate|]. split; [discriminate|].
    split; [eexists; split; reflexivity | reflexivity].
  - rewrite Hsecond. simpl. rewrite lookup_insert_eq, insert_insert_eq.
    repeat split; auto; discriminate.
  - rewrite Hfirst. split; [split; discriminate|]. split; [discriminate|].
    split; [eexists; split; reflexivity | reflexivity].
Qed.

(** C6.  The sanitized title has, at every position, ['-'] where the title
    has one of the nine characters and the character of the title elsewhere.
    When the note can be written, [createOrUpdateArticleNote] returns and
    what it has changed is the entry of the vault at
    [folder/sanitizedTitle.md], now the note of the article; for the title
    [A/B? Test] the note is at [folder/A-B- Test.md].  When the note cannot
    be written it throws and changes nothing. *)
Theorem note_path_of_sanitized_title (article : Article.t) (folder : string)
  (w : World) :
  let title := Article.title article in
  let nine := ["\"; "/"; ":"; "*"; "?"; Str.dquote; "<"; ">"; "|"]%char in
  let noteContent := articleToMarkdown turndown numberToString article in
  let run := createOrUpdateArticleNote turndown numberToString article folder
               w in
  (forall i, String.get i (sanitizeTitle title)
             = dash_unsafe <$> String.get i title)
  /\ (forall c, dash_unsafe c = if decide (c ∈ nine) then "-"%char else c)
  /\ (can_write (vault w) folder title = true ->
      run = (Return tt,
             with_vault
               (<[folder +:+ "/" +:+ sanitizeTitle title +:+ ".md" :=
                    TFile noteContent]> (vault w)) w)
      /\ (title = "A/B? Test" ->
          vault (snd run) !! (folder +:+ "/A-B- Test.md")
          = Some (TFile noteContent)))
  /\ (can_write (vault w) folder title = false ->
      exists e, run = (Throw e, w)).
Proof.
  cbv zeta. split; [intros i; apply sanitizeTitle_get|].
  split.
  { intros c. unfold dash_unsafe.
    pose proof (unsafe_chars_nine c) as H.
    destruct (Str.mem c unsafe_chars); case_decide as Hd; try reflexivity;
      rewrite list_elem_of_In in Hd; exfalso.
    - apply Hd, H. reflexivity.
    - apply H in Hd. discriminate. }
  unfold can_write. rewrite createOrUpdateArticleNote_eq. cbv zeta.
  change (folder +:+ "/" +:+ sanitizeTitle (Article.title article) +:+ ".md")
    with (notePath folder (Article.title article)).
  assert (Hput : ∀ v : gmap string Entry,
            Article.title article = "A/B? Test" ->
            <[notePath folder (Article.title article) :=
                TFile (articleToMarkdown turndown numberToString article)]> v
            !! (folder +:+ "/A-B- Test.md")
            = Some (TFile (articleToMarkdown turndown numberToString article))).
  { intros v ->. apply lookup_insert_eq. }
  destruct (vault w !! notePath folder (Article.title article))
    as [[d|]|]; [| |destruct (is_folder (vault w) folder)]; simpl.
  - split; [intros _; split; [reflexivity | apply Hput] | discriminate].
  - split; [discriminate | eauto].
  - split; [intros _; split; [reflexivity | apply Hput] | discriminate].
  - split; [discriminate | eauto].
Qed.

End Engine.

(** ** The converter and the tags, on texts *)

(** C10, as the converter has it.  When [&amp;lt;] is still in the text
    once the line breaks are replaced and the tags stripped, the entity
    replacements, made in the order [&nbsp;], [&amp;], [&lt;], [&gt;],
    decode it twice: the result has [<] and does not have [&lt;].  A text
    without [<] goes through the stripping unchanged. *)
Theorem htmlToMarkdown_decodes_twice (html : string) :
  Str.contains "&amp;lt;" (stripTags html) ->
  htmlToMarkdown html
  = Str.trim
      (replace_all (Lit "&gt;") ">"
         (replace_all (Lit "&lt;") "<"
            (replace_all (Lit "&amp;") "&"
               (replace_all (Lit "&nbsp;") " " (stripTags html)))))
  /\ Str.contains "<" (htmlToMarkdown html)
  /\ ~ Str.contains "&lt;" (htmlToMarkdown html)
  /\ (Str.mem "<" html = false -> stripTags html = html).
Proof.
  intros H. split; [reflexivity|]. split; [|split; [|apply stripTags_plain]].
  - apply StrFacts.trim_keeps; [reflexivity|].
    now apply gt_step, lt_step, amp_step, nbsp_step.
  - intros Hc. apply StrFacts.trim_contains in Hc.
    apply (RegexFacts.replace_lit_contains "&" "gt;" ">" ">" "&lt;")
      in Hc; [|reflexivity|reflexivity].
    now apply (RegexFacts.replace_lit_gone "&" "lt;" "<" "<") in Hc.
Qed.

Lemma htmlToMarkdown_decodes_twice_in_text :
  Str.contains "&amp;lt;" (stripTags "<p>a &amp;lt; b</p>")
  /\ Str.contains "<" (htmlToMarkdown "<p>a &amp;lt; b</p>").
Proof.
  assert (H : Str.contains "&amp;lt;" (stripTags "<p>a &amp;lt; b</p>")).
  { apply StrFacts.containsb_true. vm_compute. reflexivity. }
  split; [exact H|].
  apply (htmlToMarkdown_decodes_twice "<p>a &amp;lt; b</p>" H).
Defined.

(** An [&amp;lt;] between the brackets of a tag goes with the tag. *)
Lemma htmlToMarkdown_entity_inside_tag :
  Str.contains "&amp;lt;" "<p title=&amp;lt;>x</p>"
  /\ htmlToMarkdown "<p title=&amp;lt;>x</p>" = "x"
  /\ ~ Str.contains "<" (htmlToMarkdown "<p title=&amp;lt;>x</p>").
Proof.
  split; [apply StrFacts.containsb_true; vm_compute; reflexivity|].
  split; [vm_compute; reflexivity|].
  apply StrFacts.containsb_false. vm_compute. reflexivity.
Qed.

(** C2, where the plugin departs from it.  [replace] with a string pattern
    stops after the first space: the label [machine learning notes] is
    rendered [machine-learning notes], and the [tags] line of the article
    carries it so. *)
Theorem tags_first_space_only :
  tag_text {| Tag.label := "machine learning notes" |}
  = "machine-learning notes"
  /\ forall turndown numberToString,
       Str.contains ("tags: machine-learning notes, rocq" +:+ Str.nl)
         (articleToMarkdown turndown numberToString Demo.article1).
Proof.
  split; [vm_compute; reflexivity|].
  intros turndown numberToString.
  exists ("---" +:+ Str.nl +:+ "url: https://example.org/ab" +:+ Str.nl).
  eexists. reflexivity.
Qed.

(** ** Runs of the instance *)

Lemma ensureTokenValid_two_minutes_left :
  ensureTokenValid Demo.network Demo.latency (Demo.world Demo.signed_in ∅)
  = (Return tt, Demo.world Demo.signed_in ∅)
  /\ ensureTokenValid Demo.network Demo.latency
       (Demo.world Cases.no_expiry ∅)
     = (Return tt, Demo.world Cases.no_expiry ∅).
Proof.
  split; apply ensureTokenValid_reauthenticates_iff_stale.
  - vm_compute. discriminate.
  - right. exists 1700000120000%Z. split; [reflexivity | vm_compute; discriminate].
  - vm_compute. discriminate.
  - left. reflexivity.
Defined.

(** The claim C4 fails on this run: a token is held whose expiry is sixty
    seconds ahead of the clock, so within sixty seconds of it, and
    [ensureTokenValid] returns without entering [authenticate] and without
    a request. *)
Lemma ensureTokenValid_on_the_sixtieth_second :
  let w := Demo.world Cases.on_the_minute ∅ in
  let run := ensureTokenValid Demo.network Demo.latency w in
  expiry_within_sixty_seconds w
  /\ run = (Return tt, w)
  /\ issued w (snd run) = []
  /\ ~ authenticate_entered w (snd run).
Proof.
  cbv zeta.
  assert (E : ensureTokenValid Demo.network Demo.latency
                (Demo.world Cases.on_the_minute ∅)
              = (Return tt, Demo.world Cases.on_the_minute ∅))
    by (vm_compute; reflexivity).
  rewrite E. split; [|split; [reflexivity | split]].
  - split; [vm_compute; discriminate|].
    exists 1700000060000%Z. split; [reflexivity | vm_compute; discriminate].
  - vm_compute. reflexivity.
  - apply not_entered_here.
Qed.

Lemma createOrUpdateArticleNote_twice_run :
  let reconcile :=
    createOrUpdateArticleNote Demo.turndown Demo.numberToString
      Demo.article1 "Wallabag" in
  let w := Demo.world Demo.config Cases.shelf in
  let note := TFile (articleToMarkdown Demo.turndown Demo.numberToString
                       Demo.article1) in
  fst (reconcile w) = Return tt
  /\ reconcile (snd (reconcile w)) = (Return tt, snd (reconcile w))
  /\ vault (snd (reconcile w)) !! "Wallabag/A-B- Test.md" = Some note
  /\ vault (snd (reconcile (snd (reconcile w)))) !! "Wallabag/A-B- Test.md"
     = Some note.
Proof.
  pose proof (createOrUpdateArticleNote_idempotent Demo.turndown
                Demo.numberToString Demo.article1 "Wallabag"
                (Demo.world Demo.config Cases.shelf)) as T.
  cbv zeta in T. destruct T as (T1 & T2 & _).
  destruct (T2 eq_refl) as (_ & T3 & T4 & T5 & _).
  cbv zeta. split; [apply T1; reflexivity|].
  split; [exact T3 | split; [exact T4 | exact T5]].
Defined.

Lemma note_path_of_sanitized_title_run :
  let run := createOrUpdateArticleNote Demo.turndown Demo.numberToString
               Demo.article1 "Wallabag"
               (Demo.world Demo.config Cases.shelf) in
  fst run = Return tt
  /\ vault (snd run) !! "Wallabag/A-B- Test.md"
     = Some (TFile (articleToMarkdown Demo.turndown Demo.numberToString
                      Demo.article1)).
Proof.
  pose proof (note_path_of_sanitized_title Demo.turndown Demo.numberToString
                Demo.article1 "Wallabag"
                (Demo.world Demo.config Cases.shelf)) as T.
  cbv zeta in T. destruct T as (_ & _ & T & _).
  destruct (T eq_refl) as (T1 & T2).
  cbv zeta. split; [now rewrite T1 | exact (T2 eq_refl)].
Defined.

Lemma authenticate_with_and_without_password :
  (let run := authenticate Demo.network Demo.latency
                (Demo.world Demo.no_password ∅) in
   fst run = Throw (Err "Missing credentials")
   /\ issued (Demo.world Demo.no_password ∅) (snd run) = []
   /\ settings (snd run) = Demo.no_password
   /\ saved (snd run) = Demo.no_password)
  /\ (let run := authenticate Demo.network Demo.latency
                   (Demo.world Demo.config ∅) in
      issued (Demo.world Demo.config ∅) (snd run)
      = [token_request Demo.config]
      /\ Request.method (token_request Demo.config) = POST
      /\ Request.url (token_request Demo.config)
         = "https://app.wallabag.it/oauth/v2/token").
Proof.
  split.
  - apply (authenticate_checks_credentials_first Demo.network Demo.latency
             (Demo.world Demo.no_password ∅)).
    vm_compute. tauto.
  - apply (authenticate_checks_credentials_first Demo.network Demo.latency
             (Demo.world Demo.config ∅)).
    vm_compute. intuition discriminate.
Defined.

Lemma fetchArticles_second_request :
  let r := {| Request.method := GET;
              Request.url := Demo.page_url "2";
              Request.headers := [("Authorization", "Bearer tok")];
              Request.body := [] |} in
  issued (Demo.world Demo.signed_in ∅)
    (snd (fetchArticles Demo.network Demo.latency Demo.numberToString 5
            (Demo.world Demo.signed_in ∅))) !! 1 = Some r
  /\ Request.url r
     = "https://app.wallabag.it" +:+ "/api/entries.json?since="
       +:+ Demo.numberToString 0 +:+ "&page="
       +:+ Demo.numberToString (inject_Z (Z.of_nat (1 + 1)))
       +:+ "&perPage=30" +:+ "&starred=1".
Proof.
  cbv zeta.
  assert (H : issued (Demo.world Demo.signed_in ∅)
                (snd (fetchArticles Demo.network Demo.latency
                        Demo.numberToString 5
                        (Demo.world Demo.signed_in ∅))) !! 1
              = Some {| Request.method := GET;
                        Request.url := Demo.page_url "2";
                        Request.headers := [("Authorization", "Bearer tok")];
                        Request.body := [] |}).
  { vm_compute. reflexivity. }
  split; [exact H|].
  apply (fetchArticles_page_request Demo.network Demo.latency
           Demo.numberToString 5 (Demo.world Demo.signed_in ∅) 1 _ H).
Defined.

Lemma fetchArticles_one_page_service :
  let w := Demo.world Demo.signed_in ∅ in
  let run := fetchArticles (Demo.single [Demo.article1]) Demo.latency
               Demo.numberToString 1 w in
  fst run = Return [Demo.article1]
  /\ issued w (snd run)
     = [ {| Request.method := GET;
            Request.url := Demo.page_url "1";
            Request.headers := [("Authorization", "Bearer tok")];
            Request.body := [] |} ].
Proof.
  cbv zeta.
  pose proof (fetchArticles_single_page (Demo.single [Demo.article1])
                Demo.latency Demo.numberToString 0
                (Demo.world Demo.signed_in ∅)
                {| Response.ok := true; Response.text := "";
                   Response.json := Demo.page [Demo.article1] false |})
    as T.
  cbv zeta in T. destruct T as (H1 & H2 & _).
  - vm_compute. reflexivity.
  - reflexivity.
  - reflexivity.
  - split; [exact H1 | exact H2].
Defined.

Lemma sync_with_failing_second_page :
  let w := Demo.world Demo.signed_in ∅ in
  let w' := snd (syncWallabagArticles Demo.flaky Demo.latency Demo.turndown
                   Demo.numberToString 5 w) in
  console w' = [Err "Failed to fetch articles: Bad Gateway"]
  /\ vault w' = ∅
  /\ since (settings w') = 0%Q /\ since (saved w') = 0%Q.
Proof.
  cbv zeta.
  pose proof (failed_page_keeps_watermark Demo.flaky Demo.latency
                Demo.turndown Demo.numberToString 5
                (Demo.world Demo.signed_in ∅)
                {| Request.method := GET;
                   Request.url := Demo.page_url "2";
                   Request.headers := [("Authorization", "Bearer tok")];
                   Request.body := [] |}
                {| Response.ok := false; Response.text := "Bad Gateway";
                   Response.json := Demo.page [] false |})
    as T.
  cbv zeta in T. destruct T as (_ & H1 & H2 & H3 & H4).
  - vm_compute. auto.
  - reflexivity.
  - vm_compute. reflexivity.
  - reflexivity.
  - reflexivity.
  - split; [exact H1 | split; [exact H2 | split; [exact H3 | exact H4]]].
Defined.

(** The claim C1 fails on this run: both articles are fetched, the write of
    the second note throws because its path is taken by a folder, and the
    watermark, 0 before the sync, is 1700000000 after it. *)
Lemma watermark_moved_though_write_failed :
  let w := Demo.world Demo.signed_in Demo.blocked in
  let w' := snd (syncWallabagArticles Demo.network Demo.latency Demo.turndown
                   Demo.numberToString 5 w) in
  ensureTokenValid Demo.network Demo.latency w = (Return tt, w)
  /\ fst (fetchArticles Demo.network Demo.latency Demo.numberToString 5 w)
     = Return [Demo.article1; Demo.article2]
  /\ fst (write_notes Demo.turndown Demo.numberToString
            [Demo.article1; Demo.article2]
            (snd (fetchArticles Demo.network Demo.latency
                    Demo.numberToString 5 w)))
     = Throw (Err "File already exists.")
  /\ console w' = [Err "File already exists."]
  /\ vault w' !! "Wallabag/Notes.md" = Some TFolder
  /\ (since (settings w) == 0)%Q /\ (since (saved w) == 0)%Q
  /\ (since (settings w') == 1700000000)%Q
  /\ (since (saved w') == 1700000000)%Q
  /\ ~ (since (saved w') == since (saved w))%Q.
Proof.
  cbv zeta. repeat split; try (vm_compute; reflexivity).
  intros H. vm_compute in H. discriminate.
Qed.

(** ** More on titles, paths and tags *)

Section MoreText.
Import Str StrFacts RegexFacts.

Local Arguments String.append : simpl nomatch.

Lemma dash_unsafe_safe (c : ascii) : mem (dash_unsafe c) unsafe_chars = false.
Proof.
  unfold dash_unsafe. destruct (mem c unsafe_chars) eqn:E; [reflexivity|exact E].
Qed.

Lemma sanitizeTitle_app (a b : string) :
  sanitizeTitle (a +:+ b) = sanitizeTitle a +:+ sanitizeTitle b.
Proof.
  induction a as [|c a IH]; [reflexivity|].
  simpl String.append. rewrite !sanitizeTitle_cons. simpl. now rewrite IH.
Qed.

Lemma mem_cons (c x : ascii) (s : string) :
  mem c (String x s) = Ascii.eqb c x || mem c s.
Proof. reflexivity. Qed.

Lemma app_inj_tail (x y z : string) : x +:+ z = y +:+ z -> x = y.
Proof.
  revert y; induction x as [|c x IH]; intros [|d y] H; simpl in H.
  - reflexivity.
  - apply (f_equal String.length) in H. simpl in H.
    rewrite length_app in H. lia.
  - apply (f_equal String.length) in H. simpl in H.
    rewrite length_app in H. lia.
  - injection H as -> H. f_equal. now apply IH.
Qed.

Lemma app_inj_head (x y z : string) : z +:+ x = z +:+ y -> x = y.
Proof.
  induction z as [|c z IH]; simpl; intros H; [exact H|].
  injection H as H. now apply IH.
Qed.

(** X1.  The sanitized title has none of the nine characters, whatever the
    title; sanitizing it again changes nothing, and a title without any of
    them is its own sanitized title. *)
Theorem sanitizeTitle_is_safe (title : string) :
  (forall c, mem c (sanitizeTitle title) = true ->
             mem c unsafe_chars = false)
  /\ sanitizeTitle (sanitizeTitle title) = sanitizeTitle title
  /\ ((forall c, mem c title = true -> mem c unsafe_chars = false) ->
      sanitizeTitle title = title).
Proof.
  induction title as [|x t (IH1 & IH2 & IH3)].
  - split; [intros c H; discriminate|]. split; [reflexivity|].
    intros _. reflexivity.
  - rewrite !sanitizeTitle_cons.
    split; [|split].
    + intros c. rewrite mem_cons. intros [H|H]%orb_prop.
      * apply Ascii.eqb_eq in H as ->. apply dash_unsafe_safe.
      * now apply IH1.
    + rewrite IH2. f_equal. unfold dash_unsafe at 1.
      now rewrite dash_unsafe_safe.
    + intros H. rewrite IH3.
      * f_equal. unfold dash_unsafe. rewrite (H x); [reflexivity|].
        rewrite mem_cons, Ascii.eqb_refl. reflexivity.
      * intros c Hc. apply H. rewrite mem_cons, Hc. apply orb_true_r.
Qed.

(** X2.  Two titles get the same note path exactly when their sanitized
    titles are equal; in particular two titles that differ by one unsafe
    character at the same place share their path. *)
Theorem notePath_collisions (folder t1 t2 a b : string) (c1 c2 : ascii) :
  (notePath folder t1 = notePath folder t2
   <-> sanitizeTitle t1 = sanitizeTitle t2)
  /\ (mem c1 unsafe_chars = true -> mem c2 unsafe_chars = true ->
      notePath folder (a +:+ String c1 b)
      = notePath folder (a +:+ String c2 b)).
Proof.
  split.
  - unfold notePath. split.
    + intros H. apply app_inj_head in H. apply app_inj_head in H.
      now apply app_inj_tail in H.
    + now intros ->.
  - intros H1 H2. unfold notePath.
    rewrite !sanitizeTitle_app, !sanitizeTitle_cons.
    unfold dash_unsafe. now rewrite H1, H2.
Qed.

Lemma notePath_collision_of_slash_and_colon :
  notePath "Wallabag" "Q/A" = notePath "Wallabag" "Q:A".
Proof.
  apply (notePath_collisions "Wallabag" "" "" "Q" "A" "/" ":");
    reflexivity.
Defined.

Lemma replace_first_no_space (s : string) :
  mem " " s = false -> replace_first (Lit " ") "-" s = s.
Proof.
  induction s as [|x s IH]; intros H.
  - reflexivity.
  - rewrite mem_cons in H. apply orb_false_elim in H as [Hx Hs].
    rewrite replace_first_eq, exec_lit, prefix_cons, Hx.
    cbv iota. simpl andb. cbv iota. now rewrite IH.
Qed.

(** X3.  The text of a tag is its label with the first space, and only the
    first, turned into ['-']: a label without space is kept, and what
    follows the first space is copied as it is. *)
Theorem tag_text_first_space (label a b : string) :
  (mem " " label = false -> tag_text {| Tag.label := label |} = label)
  /\ (mem " " a = false ->
      tag_text {| Tag.label := a +:+ " " +:+ b |} = a +:+ "-" +:+ b).
Proof.
  unfold tag_text. simpl Tag.label. split.
  - apply replace_first_no_space.
  - apply replace_first_space.
Qed.

Lemma tag_text_of_two_words :
  tag_text {| Tag.label := "deep work" |} = "deep-work".
Proof.
  apply (tag_text_first_space "" "deep" "work"). reflexivity.
Defined.

End MoreText.

(** ** More on the hand-rolled converter *)

Section MoreConverter.
Import Str StrFacts RegexFacts.

Local Arguments String.append : simpl nomatch.

(** *** Replacement, piece by piece *)

Lemma replace_all_cons_none (r : regex) (rep : string) (c : ascii)
  (t : string) :
  exec r (String c t) = None ->
  replace_all r rep (String c t) = String c (replace_all r rep t).
Proof. intros H. unfold replace_all. simpl. now rewrite H. Qed.

Lemma replace_all_app_plain (r : regex) (rep a s : string) :
  (forall c t, mem c a = true -> exec r (String c t) = None) ->
  replace_all r rep (a +:+ s) = a +:+ replace_all r rep s.
Proof.
  induction a as [|x a IH]; intros H; [reflexivity|].
  simpl String.append. rewrite replace_all_cons_none.
  - rewrite IH; [reflexivity|].
    intros c t Hc. apply H. rewrite mem_cons, Hc. apply orb_true_r.
  - apply H. rewrite mem_cons, Ascii.eqb_refl. reflexivity.
Qed.

Lemma drop_whole_prefix (m b : string) : drop (String.length m) (m +:+ b) = b.
Proof. induction m as [|c m IH]; [apply drop_0 | exact IH]. Qed.

Lemma replace_all_match (r : regex) (rep : string) (c : ascii)
  (m b : string) :
  exec r (String c (m +:+ b)) = Some (S (String.length m)) ->
  replace_all r rep (String c (m +:+ b)) = rep +:+ replace_all r rep b.
Proof.
  intros H. unfold replace_all at 1. simpl replace_from. rewrite H.
  rewrite replace_from_skip by (rewrite length_app; lia).
  now rewrite drop_whole_prefix.
Qed.

Lemma exec_lit_other (p0 : ascii) (pt : string) (c : ascii) (t : string) :
  Ascii.eqb p0 c = false -> exec (Lit (String p0 pt)) (String c t) = None.
Proof. intros H. now rewrite exec_lit, prefix_cons, H. Qed.

(** A text without [&] goes through the four entity replacements as it
    is. *)
Lemma entities_plain (s : string) :
  mem "&" s = false ->
  replace_all (Lit "&gt;") ">"
    (replace_all (Lit "&lt;") "<"
       (replace_all (Lit "&amp;") "&"
          (replace_all (Lit "&nbsp;") " " s))) = s.
Proof.
  intros H.
  assert (E : forall pt rep,
             replace_all (Lit (String "&" pt)) rep s = s).
  { intros pt rep. apply replace_all_no_match; [reflexivity|].
    intros c t Hc. apply exec_lit_other. now apply (mem_neq _ _ s). }
  now rewrite !E.
Qed.

Lemma mem_app (c : ascii) (a b : string) :
  mem c (a +:+ b) = mem c a || mem c b.
Proof.
  induction a as [|x a IH]; [reflexivity|].
  simpl String.append. rewrite !mem_cons, IH. apply orb_assoc.
Qed.

(** *** [trim] *)

Lemma trimStart_head (s : string) (c : ascii) (r : string) :
  trimStart s = String c r -> is_space c = false.
Proof.
  induction s as [|x s IH]; simpl; [discriminate|].
  destruct (is_space x) eqn:E; [exact IH|].
  intros H. injection H as <- _. exact E.
Qed.

Lemma trimEnd_last (s pre : string) (c : ascii) :
  trimEnd s = pre +:+ String c "" -> is_space c = false.
Proof.
  revert pre; induction s as [|x s IH]; intros pre; simpl; intros H.
  - destruct pre; discriminate.
  - destruct (trimEnd s) as [|y t] eqn:E.
    + destruct (is_space x) eqn:Ex; [destruct pre; discriminate|].
      destruct pre as [|p pre]; simpl in H.
      * now injection H as <-.
      * injection H as _ H. destruct pre; discriminate.
    + destruct pre as [|p pre]; simpl in H; [discriminate|].
      injection H as _ H. now apply (IH pre).
Qed.

Lemma trim_head (s : string) (c : ascii) (r : string) :
  trim s = String c r -> is_space c = false.
Proof.
  unfold trim. intros H.
  destruct (trimEnd_prefix (trimStart s)) as [b Hb].
  rewrite H in Hb. simpl in Hb. now apply trimStart_head in Hb.
Qed.

(** A text that begins and ends with characters that are not white space
    survives [trim] wherever it stands. *)
Lemma trim_keeps_word (c1 c2 : ascii) (m s : string) :
  is_space c1 = false -> is_space c2 = false ->
  contains (String c1 (m +:+ String c2 "")) s ->
  contains (String c1 (m +:+ String c2 "")) (trim s).
Proof.
  intros H1 H2 (a & b & ->). unfold trim.
  change (a +:+ String c1 (m +:+ String c2 "") +:+ b)
    with (a +:+ String c1 ((m +:+ String c2 "") +:+ b)).
  destruct (trimStart_keeps c1 a ((m +:+ String c2 "") +:+ b) H1)
    as [a' ->].
  assert (E : a' +:+ String c1 ((m +:+ String c2 "") +:+ b)
              = (a' +:+ String c1 m) +:+ String c2 b).
  { rewrite !app_assoc. reflexivity. }
  rewrite E.
  destruct (trimEnd_keeps c2 (a' +:+ String c1 m) b H2) as [b' ->].
  exists a', b'. rewrite (app_assoc a'). f_equal. simpl. f_equal.
  now rewrite app_assoc.
Qed.

(** *** The two tag patterns on a tag *)

Lemma star_match_run (p : ascii -> bool) (t rest : string) (n : nat)
  (k : cont) :
  (forall c, mem c t = true -> p c = true) ->
  (forall c r, rest = String c r -> p c = false) ->
  k rest (n + String.length t) <> None ->
  star_match p (t +:+ rest) n k = k rest (n + String.length t).
Proof.
  revert n; induction t as [|x t IH]; intros n Ht Hrest Hk.
  - simpl in *. rewrite Nat.add_0_r in *.
    destruct rest as [|c r]; [reflexivity|].
    simpl. now rewrite (Hrest c r).
  - simpl String.append. simpl star_match.
    rewrite (Ht x) by (rewrite mem_cons, Ascii.eqb_refl; reflexivity).
    simpl String.length in *. rewrite Nat.add_succ_r in *.
    rewrite (IH (S n)); [| |exact Hrest|exact Hk].
    + change (S n + String.length t) with (S (n + String.length t)).
      destruct (k rest (S (n + String.length t))); [reflexivity|congruence].
    + intros c Hc. apply Ht. rewrite mem_cons, Hc. apply orb_true_r.
Qed.

Lemma none_of_gt (t : string) (c : ascii) :
  mem ">" t = false -> mem c t = true -> none_of ">" c = true.
Proof.
  intros Ht Hc. unfold none_of. simpl. rewrite orb_false_r.
  destruct (Ascii.eqb c ">") eqn:E; [|reflexivity].
  apply Ascii.eqb_eq in E as ->. congruence.
Qed.

(** What follows [<\/?] in the tag pattern. *)
Local Abbreviation tag_body :=
  (Seq (Plus (none_of ">")) (Alt (chr ">") Eos)).

Lemma tag_body_closed (t b : string) (n : nat) :
  t <> "" -> mem ">" t = false ->
  rmatch tag_body (t +:+ ">" +:+ b) n (fun _ m => Some m)
  = Some (S (n + String.length t)).
Proof.
  intros Hne Ht. destruct t as [|x t]; [congruence|].
  simpl String.append. simpl rmatch.
  rewrite (none_of_gt (String x t) x Ht)
    by (rewrite mem_cons, Ascii.eqb_refl; reflexivity).
  rewrite mem_cons in Ht. apply orb_false_elim in Ht as [_ Ht].
  rewrite star_match_run.
  - simpl. now rewrite Nat.add_succ_r.
  - intros c Hc. now apply (none_of_gt t).
  - intros c r H. injection H as <- _. reflexivity.
  - simpl. discriminate.
Qed.

Lemma tag_body_open (t : string) (n : nat) :
  t <> "" -> mem ">" t = false ->
  rmatch tag_body t n (fun _ m => Some m) = Some (n + String.length t).
Proof.
  intros Hne Ht. destruct t as [|x t]; [congruence|].
  simpl rmatch.
  rewrite (none_of_gt (String x t) x Ht)
    by (rewrite mem_cons, Ascii.eqb_refl; reflexivity).
  rewrite mem_cons in Ht. apply orb_false_elim in Ht as [_ Ht].
  rewrite <- (app_nil_r t) at 1. rewrite star_match_run.
  - simpl. now rewrite Nat.add_succ_r.
  - intros c Hc. now apply (none_of_gt t).
  - intros c r H. discriminate.
  - simpl. discriminate.
Qed.

Lemma rmatch_chr (a c : ascii) (s : string) (n : nat) (k : cont) :
  rmatch (chr a) (String c s) n k = if Ascii.eqb a c then k s (S n) else None.
Proof. reflexivity. Qed.

Lemma rmatch_seq_class (p : ascii -> bool) (r : regex) (c : ascii)
  (s : string) (n : nat) (k : cont) :
  rmatch (Seq (Class p) r) (String c s) n k
  = if p c then rmatch r s (S n) k else None.
Proof. reflexivity. Qed.

Lemma tag_body_gt (b : string) (n : nat) :
  rmatch tag_body (String ">" b) n (fun _ m => Some m) = None.
Proof. reflexivity. Qed.

Lemma exec_re_tag (s : string) :
  exec re_tag (String "<" s)
  = match rmatch (chr "/") s 1
            (fun s' n' => rmatch tag_body s' n' (fun _ m => Some m)) with
    | Some x => Some x
    | None => rmatch tag_body s 1 (fun _ m => Some m)
    end.
Proof. reflexivity. Qed.

(** A closed tag is matched up to its [>]. *)
Lemma exec_re_tag_closed (t b : string) :
  t <> "" -> mem ">" t = false ->
  exec re_tag (String "<" ((t +:+ ">") +:+ b))
  = Some (S (String.length (t +:+ ">"))).
Proof.
  intros Hne Ht. rewrite exec_re_tag, app_assoc, length_app.
  simpl String.length. rewrite Nat.add_1_r.
  rewrite (tag_body_closed t b 1 Hne Ht).
  destruct t as [|x t]; [congruence|].
  simpl String.append. rewrite rmatch_chr.
  destruct (Ascii.eqb "/" x) eqn:E; [|reflexivity].
  destruct t as [|y t]; [simpl String.append; now rewrite tag_body_gt|].
  rewrite mem_cons in Ht. apply orb_false_elim in Ht as [_ Ht].
  pose proof (tag_body_closed (String y t) b 2) as T.
  simpl String.append in T. simpl String.append.
  rewrite T by (congruence || exact Ht).
  reflexivity.
Qed.

(** A [<] that is never closed is matched to the end of the text. *)
Lemma exec_re_tag_open (r : string) :
  r <> "" -> mem ">" r = false ->
  exec re_tag (String "<" (r +:+ "")) = Some (S (String.length r)).
Proof.
  intros Hne Hr. rewrite exec_re_tag, app_nil_r.
  rewrite (tag_body_open r 1 Hne Hr).
  destruct r as [|x r]; [congruence|].
  rewrite rmatch_chr.
  destruct (Ascii.eqb "/" x) eqn:E; [|reflexivity].
  destruct r as [|y r]; [reflexivity|].
  rewrite mem_cons in Hr. apply orb_false_elim in Hr as [_ Hr].
  rewrite (tag_body_open (String y r) 2) by (congruence || exact Hr).
  reflexivity.
Qed.

Lemma star_match_none (p : ascii -> bool) (s : string) (n : nat) (k : cont) :
  (forall s' n', mem ">" s' = false -> k s' n' = None) ->
  mem ">" s = false -> star_match p s n k = None.
Proof.
  intros Hk. revert n; induction s as [|c s IH]; intros n Hs.
  - simpl. now apply Hk.
  - simpl. pose proof Hs as Hs'.
    rewrite mem_cons in Hs'. apply orb_false_elim in Hs' as [_ Hs'].
    rewrite (IH (S n) Hs'), (Hk _ n Hs). now destruct (p c).
Qed.

(** The line-break pattern needs a [>]. *)
Lemma exec_re_br_open (r : string) :
  mem ">" r = false -> exec re_br (String "<" r) = None.
Proof.
  intros Hr. unfold exec, re_br. unfold chr at 1.
  rewrite rmatch_seq_class, Ascii.eqb_refl.
  destruct r as [|c1 r]; [reflexivity|].
  unfold chr_i at 1. rewrite rmatch_seq_class.
  destruct (_ || _); [|reflexivity].
  rewrite mem_cons in Hr. apply orb_false_elim in Hr as [_ Hr].
  destruct r as [|c2 r]; [reflexivity|].
  unfold chr_i at 1. rewrite rmatch_seq_class.
  destruct (_ || _); [|reflexivity].
  rewrite mem_cons in Hr. apply orb_false_elim in Hr as [_ Hr].
  change (star_match is_space r 3
            (fun s' n' =>
               rmatch (Seq (Opt (chr "/")) (chr ">")) s' n'
                 (fun _ m => Some m)) = None).
  apply star_match_none; [|exact Hr].
  intros [|c s'] n' Hs; [reflexivity|].
  rewrite mem_cons in Hs. apply orb_false_elim in Hs as [Hc Hs].
  change (match rmatch (chr "/") (String c s') n'
                  (fun s'' n'' => rmatch (chr ">") s'' n'' (fun _ m => Some m))
          with
          | Some x => Some x
          | None => rmatch (chr ">") (String c s') n' (fun _ m => Some m)
          end = None).
  rewrite !rmatch_chr, Hc.
  destruct (Ascii.eqb "/" c); [|reflexivity].
  destruct s' as [|d s']; [reflexivity|].
  rewrite mem_cons in Hs. apply orb_false_elim in Hs as [Hd _].
  now rewrite rmatch_chr, Hd.
Qed.

(** *** What the converter does to a text *)

Lemma tag_patterns_elsewhere (c : ascii) (t s : string) :
  mem "<" s = false -> mem c s = true ->
  exec re_br (String c t) = None /\ exec re_tag (String c t) = None.
Proof.
  intros Hs Hc. split; apply exec_starts_with; now apply (mem_neq _ _ s).
Qed.

Lemma replace_tags_plain (r : regex) (rep s : string) :
  r = re_br \/ r = re_tag ->
  mem "<" s = false -> replace_all r rep s = s.
Proof.
  intros Hr Hs. apply replace_all_no_match.
  - destruct Hr as [->| ->]; reflexivity.
  - intros c t Hc.
    destruct (tag_patterns_elsewhere c t s Hs Hc) as [H1 H2].
    destruct Hr as [->| ->]; assumption.
Qed.

(** X4.  The Markdown that [htmlToMarkdown] returns neither begins nor ends
    with white space. *)
Theorem htmlToMarkdown_is_trimmed (html : string) :
  (forall c rest, htmlToMarkdown html = String c rest -> is_space c = false)
  /\ (forall pre c, htmlToMarkdown html = pre +:+ String c "" ->
                    is_space c = false).
Proof.
  unfold htmlToMarkdown. split.
  - intros c rest. apply trim_head.
  - intros pre c. unfold trim. apply trimEnd_last.
Qed.

(** X5.  A text with neither [<] nor [&] is returned as it is, trimmed. *)
Theorem htmlToMarkdown_plain_text (html : string) :
  mem "<" html = false -> mem "&" html = false ->
  htmlToMarkdown html = trim html.
Proof.
  intros Hlt Hamp. unfold htmlToMarkdown.
  rewrite (replace_tags_plain re_br nl html) by auto.
  rewrite (replace_tags_plain re_tag "" html) by auto.
  now rewrite entities_plain.
Qed.

Lemma htmlToMarkdown_plain_sample :
  htmlToMarkdown "  plain text, 100%  " = "plain text, 100%".
Proof.
  rewrite (htmlToMarkdown_plain_text "  plain text, 100%  ");
    reflexivity.
Defined.

(** X6.  Whatever the input, the result contains neither [&lt;] nor
    [&gt;]. *)
Theorem htmlToMarkdown_leaves_no_angle_entity (html : string) :
  ~ contains "&lt;" (htmlToMarkdown html)
  /\ ~ contains "&gt;" (htmlToMarkdown html).
Proof.
  unfold htmlToMarkdown. split; intros Hc; apply trim_contains in Hc.
  - apply (replace_lit_contains "&" "gt;" ">" ">" "&lt;")
      in Hc; [|reflexivity|reflexivity].
    now apply (replace_lit_gone "&" "lt;" "<" "<") in Hc.
  - now apply (replace_lit_gone "&" "gt;" ">" ">") in Hc.
Qed.

Lemma nbsp_escaped_step (pt rep t s : string) :
  (forall b, replace_all (Lit (String "&" pt)) rep (String "&" (t +:+ b))
             = String "&" (t +:+ replace_all (Lit (String "&" pt)) rep b)) ->
  mem "&" pt = false ->
  contains (String "&" t) s ->
  contains (String "&" t) (replace_all (Lit (String "&" pt)) rep s).
Proof.
  intros Hcopy Hpt (a & b & ->).
  destruct (replace_lit_reaches "&" pt rep "&" a (t +:+ b) Hpt) as [a' Ha].
  simpl String.append. simpl String.append in Ha. rewrite Ha, Hcopy.
  exists a', (replace_all (Lit (String "&" pt)) rep b). reflexivity.
Qed.

(** X7.  The second decoding is not for every entity: an [&amp;nbsp;] that
    is in the text once the tags are stripped comes out as the literal
    [&nbsp;], the [&nbsp;] replacement having run before the [&amp;] one. *)
Theorem htmlToMarkdown_keeps_escaped_nbsp (html : string) :
  contains "&amp;nbsp;" (stripTags html) ->
  contains "&nbsp;" (htmlToMarkdown html).
Proof.
  intros H. unfold htmlToMarkdown. fold (stripTags html).
  apply (trim_keeps_word "&" ";" "nbsp"); [reflexivity|reflexivity|].
  apply (nbsp_escaped_step "gt;" ">" "nbsp;");
    [intros b; reflexivity | reflexivity |].
  apply (nbsp_escaped_step "lt;" "<" "nbsp;");
    [intros b; reflexivity | reflexivity |].
  destruct (nbsp_escaped_step "nbsp;" " " "amp;nbsp;" (stripTags html))
    as (a & b & ->); [intros b; reflexivity | reflexivity | exact H |].
  destruct (replace_lit_reaches "&" "amp;" "&" "&" a ("amp;nbsp;" +:+ b))
    as [a' Ha]; [reflexivity|].
  change (a +:+ "&amp;nbsp;" +:+ b)
    with (a +:+ String "&" ("amp;nbsp;" +:+ b)).
  rewrite Ha. now exists a', (replace_all (Lit "&amp;") "&" b).
Qed.

Lemma htmlToMarkdown_escaped_nbsp_sample :
  contains "&amp;nbsp;" (stripTags "<p>write &amp;nbsp; for a space</p>")
  /\ contains "&nbsp;"
       (htmlToMarkdown "<p>write &amp;nbsp; for a space</p>").
Proof.
  assert (H : contains "&amp;nbsp;"
                (stripTags "<p>write &amp;nbsp; for a space</p>")).
  { apply containsb_true. vm_compute. reflexivity. }
  split; [exact H|].
  apply (htmlToMarkdown_keeps_escaped_nbsp
           "<p>write &amp;nbsp; for a space</p>" H).
Defined.

Lemma exec_re_br_tag (c1 c2 : ascii) (ws slash rest : string) :
  c1 = "b"%char \/ c1 = "B"%char -> c2 = "r"%char \/ c2 = "R"%char ->
  (forall c, mem c ws = true -> is_space c = true) ->
  slash = "" \/ slash = "/" ->
  exec re_br
    (String "<" (String c1 (String c2 (ws +:+ slash +:+ ">")) +:+ rest))
  = Some (S (String.length (String c1 (String c2 (ws +:+ slash +:+ ">"))))).
Proof.
  intros H1 H2 Hws Hslash. unfold exec, re_br. unfold chr at 1.
  rewrite rmatch_seq_class, Ascii.eqb_refl.
  simpl String.append. unfold chr_i at 1. rewrite rmatch_seq_class.
  replace (Ascii.eqb "b" c1 || Ascii.eqb "B" c1) with true
    by (destruct H1 as [->| ->]; reflexivity).
  unfold chr_i at 1. rewrite rmatch_seq_class.
  replace (Ascii.eqb "r" c2 || Ascii.eqb "R" c2) with true
    by (destruct H2 as [->| ->]; reflexivity).
  change (star_match is_space ((ws +:+ slash +:+ ">") +:+ rest) 3
            (fun s' n' =>
               rmatch (Seq (Opt (chr "/")) (chr ">")) s' n'
                 (fun _ m => Some m))
          = Some (S (S (S (String.length (ws +:+ slash +:+ ">")))))).
  rewrite !app_assoc, !length_app.
  rewrite star_match_run; [| exact Hws | |].
  - destruct Hslash as [->| ->]; simpl; f_equal; lia.
  - intros c r H. destruct Hslash as [->| ->]; simpl in H;
      injection H as <- _; reflexivity.
  - destruct Hslash as [->| ->]; simpl; discriminate.
Qed.

(** X8.  Between two pieces of text without markup, a [br] tag, in either
    case, with or without white space and slash before its [>], becomes one
    line feed. *)
Theorem htmlToMarkdown_line_break (a b ws slash : string) (c1 c2 : ascii) :
  plain a -> plain b ->
  c1 = "b"%char \/ c1 = "B"%char -> c2 = "r"%char \/ c2 = "R"%char ->
  (forall c, mem c ws = true -> is_space c = true) ->
  slash = "" \/ slash = "/" ->
  htmlToMarkdown
    (a +:+ "<" +:+ String c1 (String c2 (ws +:+ slash +:+ ">")) +:+ b)
  = trim (a +:+ nl +:+ b).
Proof.
  intros [Ha1 Ha2] [Hb1 Hb2] H1 H2 Hws Hslash. unfold htmlToMarkdown.
  assert (E : replace_all re_br nl
                (a +:+ "<" +:+ String c1 (String c2 (ws +:+ slash +:+ ">"))
                   +:+ b)
              = a +:+ nl +:+ b).
  { rewrite replace_all_app_plain
      by (intros c t Hc; now apply (tag_patterns_elsewhere c t a)).
    simpl String.append.
    pose proof (replace_all_match re_br nl "<"
                  (String c1 (String c2 (ws +:+ slash +:+ ">"))) b) as T.
    simpl String.append in T. rewrite T.
    - now rewrite (replace_tags_plain re_br nl b) by auto.
    - apply (exec_re_br_tag c1 c2 ws slash b); assumption. }
  rewrite E.
  assert (Hlt : mem "<" (a +:+ nl +:+ b) = false)
    by (rewrite !mem_app, Ha1, Hb1; reflexivity).
  assert (Hamp : mem "&" (a +:+ nl +:+ b) = false)
    by (rewrite !mem_app, Ha2, Hb2; reflexivity).
  rewrite (replace_tags_plain re_tag "" _) by auto.
  now rewrite entities_plain.
Qed.

Lemma htmlToMarkdown_line_break_sample :
  htmlToMarkdown ("one" +:+ "<" +:+ String "B" (String "r" (" " +:+ "/" +:+ ">"))
                  +:+ "two")
  = "one" +:+ nl +:+ "two".
Proof.
  rewrite (htmlToMarkdown_line_break "one" "two" " " "/" "B" "r");
    try (split; reflexivity); auto.
  intros c H. simpl in H. rewrite orb_false_r in H.
  apply Ascii.eqb_eq in H as ->. reflexivity.
Defined.

Lemma tagged_plain (pieces : list (string * string)) (last : string) :
  (forall a t, In (a, t) pieces -> plain a /\ tag_inside t) ->
  plain last ->
  replace_all re_br nl (tagged pieces last) = tagged pieces last
  /\ replace_all re_tag "" (tagged pieces last) = untagged pieces last
  /\ plain (untagged pieces last).
Proof.
  intros H [Hl1 Hl2]. induction pieces as [|[a t] l IH]; simpl.
  - repeat split; auto; now apply replace_tags_plain; auto.
  - destruct (H a t) as [[Ha1 Ha2] (Hne & Ht1 & Ht2 & Hbr)]; [now left|].
    destruct IH as (IH1 & IH2 & IH3 & IH4).
    { intros a' t' Hin. apply H. now right. }
    split; [|split].
    + rewrite replace_all_app_plain
        by (intros c s Hc; now apply (tag_patterns_elsewhere c s a)).
      f_equal.
      rewrite replace_all_cons_none by exact (Hbr _).
      f_equal. rewrite replace_all_app_plain
        by (intros c s Hc; now apply (tag_patterns_elsewhere c s t)).
      f_equal.
      rewrite replace_all_cons_none by reflexivity.
      now rewrite IH1.
    + rewrite replace_all_app_plain
        by (intros c s Hc; now apply (tag_patterns_elsewhere c s a)).
      f_equal.
      pose proof (replace_all_match re_tag "" "<" (t +:+ ">")
                    (tagged l last)) as T.
      rewrite app_assoc in T. simpl String.append in T |- *.
      rewrite T; [exact IH2|].
      pose proof (exec_re_tag_closed t (tagged l last) Hne Ht2) as T'.
      rewrite app_assoc in T'. exact T'.
    + unfold plain. rewrite !mem_app, Ha1, Ha2, IH3, IH4. auto.
Qed.

(** X9.  In a text made of pieces without markup separated by tags that
    are not line breaks, every tag is removed and nothing else: the result
    is the pieces put together, trimmed. *)
Theorem htmlToMarkdown_strips_tags (pieces : list (string * string))
  (last : string) :
  (forall a t, In (a, t) pieces -> plain a /\ tag_inside t) ->
  plain last ->
  htmlToMarkdown (tagged pieces last) = trim (untagged pieces last).
Proof.
  intros H Hl. destruct (tagged_plain pieces last H Hl) as (E1 & E2 & _ & E3).
  unfold htmlToMarkdown. rewrite E1, E2. now rewrite entities_plain.
Qed.

Lemma htmlToMarkdown_strips_tags_sample :
  htmlToMarkdown "<p>A <b>bold</b> word</p> " = "A bold word".
Proof.
  apply (htmlToMarkdown_strips_tags
           [("", "p"); ("A ", "b"); ("bold", "/b"); (" word", "/p")] " ").
  - intros a t Hin. simpl in Hin.
    repeat (destruct Hin as [Hin|Hin];
            [injection Hin as <- <-;
             (split; [split; reflexivity|]);
             (split; [discriminate|]);
             (split; [reflexivity|]);
             (split; [reflexivity|]); intros rest; reflexivity|]).
    destruct Hin.
  - split; reflexivity.
Defined.

(** X10.  A [<] that no [>] follows takes the rest of the text with it:
    what comes out is the text before it, trimmed. *)
Theorem htmlToMarkdown_unclosed_angle (a r : string) :
  plain a -> r <> "" -> mem "<" r = false -> mem ">" r = false ->
  htmlToMarkdown (a +:+ "<" +:+ r) = trim a.
Proof.
  intros [Ha1 Ha2] Hne Hr1 Hr2. unfold htmlToMarkdown.
  assert (E1 : replace_all re_br nl (a +:+ "<" +:+ r) = a +:+ "<" +:+ r).
  { rewrite replace_all_app_plain
      by (intros c t Hc; now apply (tag_patterns_elsewhere c t a)).
    f_equal. simpl String.append.
    rewrite replace_all_cons_none by now apply exec_re_br_open.
    now rewrite (replace_tags_plain re_br nl r) by auto. }
  assert (E2 : replace_all re_tag "" (a +:+ "<" +:+ r) = a).
  { rewrite replace_all_app_plain
      by (intros c t Hc; now apply (tag_patterns_elsewhere c t a)).
    pose proof (replace_all_match re_tag "" "<" r "") as T.
    simpl String.append. rewrite app_nil_r in T at 2. rewrite T.
    - simpl. apply app_nil_r.
    - now apply exec_re_tag_open. }
  rewrite E1, E2. now rewrite entities_plain.
Qed.

Lemma htmlToMarkdown_unclosed_angle_sample :
  htmlToMarkdown "if 1 < 2 then stop" = "if 1".
Proof.
  apply (htmlToMarkdown_unclosed_angle "if 1 " " 2 then stop");
    try reflexivity; [split; reflexivity | discriminate].
Defined.

End MoreConverter.

(** ** More on the token *)

Section MoreEngine.

Variable network : Request.t -> Reply.
Variable latency : Request.t -> Z.
Variable turndown : string -> string.
Variable numberToString : Q -> string.

Local Open Scope plugin_scope.

(** *** The token, once more *)

Lemma authenticate_in_step (w : World) :
  saved w = settings w ->
  saved (snd (authenticate network latency w))
  = settings (snd (authenticate network latency w)).
Proof.
  intros H. destruct (credentials_missing_dec (settings w)) as [Hm|Hm].
  - rewrite authenticate_missing by exact Hm. exact H.
  - rewrite authenticate_complete by exact Hm. cbv zeta.
    destruct (network _) as [e|resp]; [exact H|].
    destruct (Response.ok resp); [reflexivity | exact H].
Qed.

(** X11.  With the credentials present and the token request answered with
    success, [authenticate] returns with the token state of the answer, the
    expiry being counted in milliseconds from the moment the answer is
    there; nothing else of the settings changes, and what is persisted is
    the new settings. *)
Theorem authenticate_stores_the_grant (w : World) (resp : Response.t) :
  ~ credentials_missing (settings w) ->
  network (token_request (settings w)) = Responded resp ->
  Response.ok resp = true ->
  let run := authenticate network latency w in
  let data := Response.json resp in
  let arrival := (clock w + latency (token_request (settings w)))%Z in
  fst run = Return tt
  /\ settings (snd run)
     = set_tokenExpiry (arrival + Json.expires_in data * 1000)%Z
         (set_refreshToken (Json.refresh_token data)
            (set_accessToken (Json.access_token data) (settings w)))
  /\ saved (snd run) = settings (snd run)
  /\ clock (snd run) = arrival
  /\ vault (snd run) = vault w.
Proof.
  intros Hm Hnet Hok. cbv zeta.
  rewrite authenticate_complete by exact Hm. cbv zeta.
  rewrite Hnet, Hok. simpl. auto.
Qed.

(** X12.  When the token request is refused, or cannot be made, the error
    thrown is the body of the refusal, or the rejection, and the settings
    and the persisted data, the old token included, are as before. *)
Theorem authenticate_failure_keeps_token (w : World) :
  ~ credentials_missing (settings w) ->
  let run := authenticate network latency w in
  match network (token_request (settings w)) with
  | Rejected e =>
      fst run = Throw e
      /\ settings (snd run) = settings w /\ saved (snd run) = saved w
  | Responded resp =>
      Response.ok resp = false ->
      fst run = Throw (Err (Response.text resp))
      /\ settings (snd run) = settings w /\ saved (snd run) = saved w
      /\ notices (snd run)
         = notices w ++ ["Authenticating with Wallabag...";
                         "Failed to authenticate with Wallabag."]
  end.
Proof.
  intros Hm. cbv zeta. rewrite authenticate_complete by exact Hm. cbv zeta.
  destruct (network _) as [e|resp]; [simpl; auto|].
  intros ->. simpl. repeat split. now rewrite <- app_assoc.
Qed.

(** X13.  A grant is used again for its life less sixty seconds.  When
    [ensureTokenValid] has authenticated and returned, a call made [d]
    milliseconds after the expiry was computed returns at once and changes
    nothing if [d] is at most the life of the grant less sixty seconds, and
    is [authenticate] again if [d] is more: a grant of sixty seconds or
    less is asked for anew as soon as a millisecond has passed. *)
Theorem ensureTokenValid_reuses_grant (w w1 : World) (resp : Response.t)
  (d : Z) :
  token_stale w ->
  ensureTokenValid network latency w = (Return tt, w1) ->
  network (token_request (settings w)) = Responded resp ->
  Json.access_token (Response.json resp) <> "" ->
  let life := (Json.expires_in (Response.json resp) * 1000 - 60 * 1000)%Z in
  let w2 := later d w1 in
  ((d <= life)%Z -> ensureTokenValid network latency w2 = (Return tt, w2))
  /\ ((life < d)%Z ->
      ensureTokenValid network latency w2 = authenticate network latency w2).
Proof.
  intros Hs Hrun Hnet Htok. cbv zeta.
  rewrite ensureTokenValid_stale in Hrun by exact Hs.
  destruct (credentials_missing_dec (settings w)) as [Hm|Hm].
  { rewrite authenticate_missing in Hrun by exact Hm. discriminate. }
  rewrite authenticate_complete in Hrun by exact Hm. cbv zeta in Hrun.
  rewrite Hnet in Hrun.
  destruct (Response.ok resp); [|discriminate].
  injection Hrun as <-. split; intros Hd.
  - apply ensureTokenValid_fresh. unfold token_stale. simpl.
    intros [E|(e & [= <-] & E)]; [congruence | lia].
  - apply ensureTokenValid_stale. right. simpl.
    eexists. split; [reflexivity | lia].
Qed.

End MoreEngine.

(** ** More on fetching *)

Section MoreFetch.

Variable network : Request.t -> Reply.
Variable latency : Request.t -> Z.
Variable turndown : string -> string.
Variable numberToString : Q -> string.

Local Open Scope plugin_scope.

(** *** The loop over several pages *)

Lemma fetch_loop_pages (pages : list Response.t) (last : Response.t)
  (fuel : nat) (url tok : string) (snc : Q) (acc : list Article.t)
  (page : nat) (w : World) :
  let req i := entries_request numberToString url tok snc i
                 (onlyStarred (settings w)) in
  (forall i resp, pages !! i = Some resp ->
     network (req (page + i)) = Responded resp
     /\ Response.ok resp = true /\ has_next (Response.json resp) = true) ->
  network (req (page + length pages)) = Responded last ->
  Response.ok last = true -> has_next (Response.json last) = false ->
  length pages < fuel ->
  fetch_loop network latency numberToString fuel url tok snc acc page w
  = (Return (acc ++ concat (map (fun r => embedded_items (Response.json r))
                              (pages ++ [last]))),
     with_requests latency (map req (seq page (S (length pages)))) w).
Proof.
  cbv zeta. revert fuel acc page w.
  induction pages as [|r0 ps IH]; intros fuel acc page w Hpages Hlast Hok
    Hnext Hfuel; (destruct fuel as [|fuel]; [simpl in Hfuel; lia|]).
  - simpl in Hlast. rewrite Nat.add_0_r in Hlast.
    rewrite (fetch_loop_last network latency numberToString fuel url tok snc
               acc page w last Hlast Hok Hnext).
    simpl. now rewrite app_nil_r.
  - destruct (Hpages 0 r0 eq_refl) as (H0 & H0ok & H0next).
    rewrite Nat.add_0_r in H0.
    rewrite fetch_loop_S. cbv zeta. rewrite H0, H0ok, H0next.
    rewrite IH.
    + simpl. now rewrite <- app_assoc.
    + intros i resp Hi. simpl.
      replace (S (page + i)) with (page + S i) by lia.
      now apply Hpages.
    + simpl. simpl in Hlast.
      now replace (S (page + length ps)) with (page + S (length ps)) by lia.
    + exact Hok.
    + exact Hnext.
    + simpl in Hfuel. lia.
Qed.

(** X14.  When the service answers pages 1 to n with success, every page
    but the last with a [next] link, [fetchArticles], given fuel for n
    turns, returns the items of the pages in page order after exactly the
    n requests, and sets and persists the watermark captured on entry. *)
Theorem fetchArticles_all_pages (fuel : nat) (w : World)
  (pages : list Response.t) (last : Response.t) :
  let s := settings w in
  let req i := entries_request numberToString (instanceUrl s)
                 (accessToken s) (since s) i (onlyStarred s) in
  (forall i resp, pages !! i = Some resp ->
     network (req (1 + i)) = Responded resp
     /\ Response.ok resp = true /\ has_next (Response.json resp) = true) ->
  network (req (1 + length pages)) = Responded last ->
  Response.ok last = true -> has_next (Response.json last) = false ->
  length pages < fuel ->
  let run := fetchArticles network latency numberToString fuel w in
  fst run
  = Return (concat (map (fun r => embedded_items (Response.json r))
                      (pages ++ [last])))
  /\ issued w (snd run) = map req (seq 1 (S (length pages)))
  /\ settings (snd run)
     = set_since (inject_Z (clock w) / 1000)%Q (settings w)
  /\ saved (snd run) = settings (snd run).
Proof.
  cbv zeta. intros Hpages Hlast Hok Hnext Hfuel.
  rewrite fetchArticles_eq. cbv zeta.
  rewrite (fetch_loop_pages pages last fuel _ _ _ [] 1
             (with_notice "Fetching Wallabag articles..." w)
             Hpages Hlast Hok Hnext Hfuel).
  match goal with
  | |- context [with_requests latency ?l ?w0] =>
      destruct (with_requests_frame latency l w0)
        as (H1 & _ & _ & _ & _ & H6);
      remember (with_requests latency l w0) as W eqn:HW
  end.
  simpl in H1, H6. simpl. rewrite H1.
  split; [reflexivity|]. split; [|auto].
  now apply issued_app.
Qed.

(** *** A service that never ends *)

Lemma fetch_loop_endless (fuel : nat) (url tok : string) (snc : Q)
  (acc : list Article.t) (page : nat) (w : World) :
  (forall i, exists resp,
     network (entries_request numberToString url tok snc i
                (onlyStarred (settings w))) = Responded resp
     /\ Response.ok resp = true /\ has_next (Response.json resp) = true) ->
  exists new,
    fetch_loop network latency numberToString fuel url tok snc acc page w
    = (Pending, with_requests latency new w)
    /\ length new = fuel.
Proof.
  intros H. revert acc page w H.
  induction fuel as [|fuel IH]; intros acc page w H.
  - now exists [].
  - rewrite fetch_loop_S. cbv zeta.
    destruct (H page) as (resp & Hnet & Hok & Hnext).
    rewrite Hnet, Hok, Hnext.
    destruct (IH (acc ++ embedded_items (Response.json resp)) (S page)
                (with_request
                   (entries_request numberToString url tok snc page
                      (onlyStarred (settings w)))
                   (latency (entries_request numberToString url tok snc page
                               (onlyStarred (settings w)))) w) H)
      as (new & E & Hlen).
    rewrite E. eexists (_ :: new). split; [reflexivity|].
    simpl. now rewrite Hlen.
Qed.

(** X15.  The loop has no bound of its own: against a service whose every
    page is a success with a [next] link, [fetchArticles] is still running
    after any number of turns, one request a turn, and the watermark has not
    moved. *)
Theorem fetchArticles_never_ends (fuel : nat) (w : World) :
  let s := settings w in
  (forall i, exists resp,
     network (entries_request numberToString (instanceUrl s) (accessToken s)
                (since s) i (onlyStarred s)) = Responded resp
     /\ Response.ok resp = true /\ has_next (Response.json resp) = true) ->
  let run := fetchArticles network latency numberToString fuel w in
  fst run = Pending
  /\ length (issued w (snd run)) = fuel
  /\ settings (snd run) = settings w /\ saved (snd run) = saved w.
Proof.
  cbv zeta. intros H. rewrite fetchArticles_eq. cbv zeta.
  destruct (fetch_loop_endless fuel (instanceUrl (settings w))
              (accessToken (settings w)) (since (settings w)) [] 1
              (with_notice "Fetching Wallabag articles..." w) H)
    as (new & -> & Hlen).
  destruct (with_requests_frame latency new
              (with_notice "Fetching Wallabag articles..." w))
    as (H1 & H2 & _ & _ & _ & H6).
  simpl. split; [reflexivity|].
  rewrite (issued_app w _ new H6). auto.
Qed.

End MoreFetch.

(** ** More on the sync *)

Section MoreSync.

Variable network : Request.t -> Reply.
Variable latency : Request.t -> Z.
Variable turndown : string -> string.
Variable numberToString : Q -> string.

Local Open Scope plugin_scope.

(** *** A page request that cannot be made *)

Lemma fetch_loop_rejected (fuel : nat) (url tok : string) (snc : Q)
  (acc : list Article.t) (page : nat) (w : World) :
  exists new,
    snd (fetch_loop network latency numberToString fuel url tok snc acc
           page w) = with_requests latency new w
    /\ (forall r e, In r new -> network r = Rejected e ->
          fst (fetch_loop network latency numberToString fuel url tok snc acc
                 page w) = Throw e).
Proof.
  revert acc page w; induction fuel as [|fuel IH]; intros acc page w.
  - exists []. simpl. split; [reflexivity | intros r e []].
  - rewrite fetch_loop_S. cbv zeta.
    remember (entries_request numberToString url tok snc page
                (onlyStarred (settings w))) as req eqn:Hreq.
    destruct (network req) as [e0|resp0] eqn:Enet.
    + exists [req]. simpl. split; [reflexivity|].
      intros r e [<-|[]] Hr. congruence.
    + destruct (Response.ok resp0) eqn:Eok.
      * destruct (has_next (Response.json resp0)).
        -- destruct (IH (acc ++ embedded_items (Response.json resp0)) (S page)
                       (with_request req (latency req) w))
             as (new & Hw & Hrej).
           exists (req :: new). split; [exact Hw|].
           intros r e [<-|Hin] Hr; [congruence|]. now apply (Hrej r).
        -- exists [req]. simpl. split; [reflexivity|].
           intros r e [<-|[]] Hr. congruence.
      * exists [req]. simpl. split; [reflexivity|].
        intros r e [<-|[]] Hr. congruence.
Qed.

Lemma fetchArticles_rejected (fuel : nat) (w : World) (r : Request.t)
  (e : Error) :
  In r (issued w (snd (fetchArticles network latency numberToString fuel w))) ->
  network r = Rejected e ->
  fst (fetchArticles network latency numberToString fuel w) = Throw e.
Proof.
  rewrite fetchArticles_eq. cbv zeta.
  destruct (fetch_loop_rejected fuel (instanceUrl (settings w))
              (accessToken (settings w)) (since (settings w)) [] 1
              (with_notice "Fetching Wallabag articles..." w))
    as (new & Hw & Hrej).
  destruct (with_requests_frame latency new
              (with_notice "Fetching Wallabag articles..." w))
    as (_ & _ & _ & _ & _ & Hr).
  simpl in Hr.
  destruct (fetch_loop _ _ _ _ _ _ _ _ _ _) as [[articles|e'|] w1];
    simpl in Hw; subst w1; simpl;
    rewrite (issued_app w _ new) by exact Hr; intros Hin Hnet;
    specialize (Hrej r e Hin Hnet); simpl in Hrej; congruence.
Qed.

(** X16.  When a page request of a sync cannot be made (the [fetch] is
    rejected), the sync logs the rejection, writes nothing to the vault and
    leaves the watermark where it was, in the settings and (the persisted
    data being in step with the settings when the sync starts) in the
    persisted data. *)
Theorem rejected_page_keeps_watermark (fuel : nat) (w : World)
  (r : Request.t) (e : Error) :
  let w' := snd (syncWallabagArticles network latency turndown
                   numberToString fuel w) in
  In r (issued w w') -> Request.method r = GET ->
  network r = Rejected e ->
  since (saved w) = since (settings w) ->
  console w' = console w ++ [e]
  /\ vault w' = vault w
  /\ since (settings w') = since (settings w)
  /\ since (saved w') = since (saved w).
Proof.
  cbv zeta. intros Hin Hget Hnet Hsaved.
  destruct (sync_after_fetch network latency turndown numberToString fuel w)
    as (_ & _ & Hr & _).
  unfold issued in Hin. rewrite Hr in Hin. clear Hr.
  rewrite sync_phases in *.
  pose proof (ensureTokenValid_frame network latency w) as F. cbv zeta in F.
  destruct (ensureTokenValid network latency w) as [[[]|e0|] w1];
    simpl in F; destruct F as (Fv & Fc & Fs & Fp & new1 & Fr & Fpost).
  2, 3: rewrite Fr, drop_app_length in Hin;
        apply list_elem_of_In in Hin;
        rewrite Forall_forall in Fpost; apply Fpost in Hin; congruence.
  destruct (fetchArticles_issued network latency numberToString fuel w1)
    as (new2 & Gr & _ & _).
  assert (Hin2 : In r new1
                 \/ In r (issued w1 (snd (fetchArticles network latency
                                            numberToString fuel w1)))).
  { rewrite (issued_app _ _ _ Gr).
    rewrite Gr, Fr, <- app_assoc, drop_app_length in Hin.
    now apply in_app_or in Hin. }
  destruct Hin2 as [Hin2|Hin2].
  { apply list_elem_of_In in Hin2.
    rewrite Forall_forall in Fpost. apply Fpost in Hin2. congruence. }
  pose proof (fetchArticles_rejected fuel w1 r e Hin2 Hnet) as Hthrow.
  pose proof (fetchArticles_world network latency numberToString fuel w1)
    as G. cbv zeta in G.
  destruct (fetchArticles network latency numberToString fuel w1)
    as [o w2]. simpl in Hthrow. subst o. simpl in G |- *.
  destruct G as (Gv & Gc & Gs & Gp).
  rewrite Gc, Gv, Gs, Gp, Fc, Fv, Fs. repeat split.
  destruct Fp as [->| ->]; congruence.
Qed.

End MoreSync.

(** ** More on the notes *)

Section MoreNotes.

Variable network : Request.t -> Reply.
Variable latency : Request.t -> Z.
Variable turndown : string -> string.
Variable numberToString : Q -> string.

Local Open Scope plugin_scope.

Local Abbreviation write folder :=
  (fun article =>
     createOrUpdateArticleNote turndown numberToString article folder).
Local Abbreviation notes := (with_notes turndown numberToString).

Lemma with_notes_app (folder : string) (l1 l2 : list Article.t)
  (v : gmap string Entry) :
  notes folder (l1 ++ l2) v = notes folder l2 (notes folder l1 v).
Proof. apply fold_left_app. Qed.

Lemma with_notes_other (folder : string) (l : list Article.t)
  (v : gmap string Entry) (p : string) :
  (forall a, In a l -> notePath folder (Article.title a) <> p) ->
  notes folder l v !! p = v !! p.
Proof.
  revert v; induction l as [|a l IH]; intros v H; [reflexivity|].
  simpl. rewrite IH by (intros a' Ha'; apply H; now right).
  apply lookup_insert_ne. apply H. now left.
Qed.

Lemma with_notes_free (folder : string) (l : list Article.t)
  (v : gmap string Entry) (p : string) :
  v !! p <> Some TFolder -> notes folder l v !! p <> Some TFolder.
Proof.
  revert v; induction l as [|a l IH]; intros v H; [exact H|].
  simpl. apply IH.
  destruct (decide (notePath folder (Article.title a) = p)) as [<-|Hne].
  - rewrite lookup_insert_eq. discriminate.
  - now rewrite lookup_insert_ne.
Qed.

Lemma notePath_not_folder (folder title : string) :
  notePath folder title <> folder.
Proof.
  unfold notePath. intros H.
  apply (f_equal String.length) in H.
  rewrite StrFacts.length_app in H. simpl in H. lia.
Qed.

Lemma is_folder_note (folder title : string) (e : Entry)
  (v : gmap string Entry) :
  is_folder (<[notePath folder title := e]> v) folder = is_folder v folder.
Proof.
  pose proof (notePath_not_folder folder title) as H.
  destruct folder as [|c f]; [reflexivity|].
  unfold is_folder. now rewrite lookup_insert_ne by exact H.
Qed.

Lemma is_folder_notes (folder : string) (l : list Article.t)
  (v : gmap string Entry) :
  is_folder (notes folder l v) folder = is_folder v folder.
Proof.
  revert v; induction l as [|a l IH]; intros v; [reflexivity|].
  simpl. rewrite IH. apply is_folder_note.
Qed.

Lemma write_free (folder : string) (a : Article.t) (w : World) :
  is_folder (vault w) folder = true ->
  vault w !! notePath folder (Article.title a) <> Some TFolder ->
  createOrUpdateArticleNote turndown numberToString a folder w
  = (Return tt,
     with_vault (<[notePath folder (Article.title a) :=
                     TFile (articleToMarkdown turndown numberToString a)]>
                   (vault w)) w).
Proof.
  intros Hf H. rewrite createOrUpdateArticleNote_eq. cbv zeta. rewrite Hf.
  destruct (vault w !! _) as [[d|]|]; congruence.
Qed.

Lemma write_blocked (folder : string) (a : Article.t) (w : World) :
  vault w !! notePath folder (Article.title a) = Some TFolder ->
  createOrUpdateArticleNote turndown numberToString a folder w
  = (Throw (Err "File already exists."), w).
Proof.
  intros H. rewrite createOrUpdateArticleNote_eq. cbv zeta. now rewrite H.
Qed.

Lemma write_cases (folder : string) (a : Article.t) (w : World) :
  createOrUpdateArticleNote turndown numberToString a folder w
  = (Return tt,
     with_vault (<[notePath folder (Article.title a) :=
                     TFile (articleToMarkdown turndown numberToString a)]>
                   (vault w)) w)
  \/ exists e,
       createOrUpdateArticleNote turndown numberToString a folder w
       = (Throw e, w).
Proof.
  rewrite createOrUpdateArticleNote_eq. cbv zeta.
  destruct (vault w !! _) as [[d|]|]; [| |destruct (is_folder _ _)]; eauto.
Qed.

Lemma batch_free (folder : string) (l : list Article.t) (w : World) :
  is_folder (vault w) folder = true ->
  paths_free folder l (vault w) ->
  for_of l (write folder) w
  = (Return tt, with_vault (notes folder l (vault w)) w).
Proof.
  revert w; induction l as [|a l IH]; intros w Hf H.
  - simpl. unfold ret. now destruct w.
  - simpl. unfold bind. rewrite write_free by (auto; apply H; now left).
    rewrite IH; [reflexivity|simpl; now rewrite is_folder_note|].
    intros a' Ha'. simpl.
    destruct (decide (notePath folder (Article.title a)
                      = notePath folder (Article.title a'))) as [E|Hne].
    + rewrite <- E, lookup_insert_eq. discriminate.
    + rewrite lookup_insert_ne by exact Hne. apply H. now right.
Qed.

Lemma batch_returned (folder : string) (l : list Article.t) (w : World) :
  fst (for_of l (write folder) w) = Return tt ->
  for_of l (write folder) w
  = (Return tt, with_vault (notes folder l (vault w)) w).
Proof.
  revert w; induction l as [|a l IH]; intros w H.
  - simpl. unfold ret. now destruct w.
  - simpl in H |- *. unfold bind in H |- *.
    destruct (write_cases folder a w) as [E|[e E]]; rewrite E in H |- *;
      [|discriminate].
    now rewrite IH.
Qed.

Lemma batch_returns_free (folder : string) (l : list Article.t) (w : World) :
  fst (for_of l (write folder) w) = Return tt ->
  paths_free folder l (vault w).
Proof.
  revert w; induction l as [|a l IH]; intros w H a' Ha'; [destruct Ha'|].
  simpl in H. unfold bind in H.
  destruct (write_cases folder a w) as [E|[e E]]; rewrite E in H;
    [|discriminate].
  destruct Ha' as [<-|Ha'].
  - intros Hb. rewrite write_blocked in E by exact Hb. discriminate.
  - specialize (IH _ H a' Ha'). simpl in IH.
    destruct (decide (notePath folder (Article.title a)
                      = notePath folder (Article.title a'))) as [Eq|Hne].
    + rewrite <- Eq. intros Hb.
      rewrite write_blocked in E by exact Hb. discriminate.
    + now rewrite lookup_insert_ne in IH by exact Hne.
Qed.


(** X17.  Under a folder that is in the vault, the notes of a list of
    articles are all written exactly when no folder stands at the path of
    any of them; the vault is then the vault before with each article's
    note put at its path, in the order of the list.  Under a folder that is
    missing, or is a file, the first note, when it is not there yet, is
    refused by the host and nothing is written. *)
Theorem notes_batch (folder : string) (articles : list Article.t)
  (w : World) :
  let run := for_of articles (write folder) w in
  (is_folder (vault w) folder = true ->
   (fst run = Return tt <-> paths_free folder articles (vault w))
   /\ (fst run = Return tt ->
       run = (Return tt, with_vault (notes folder articles (vault w)) w)))
  /\ (is_folder (vault w) folder = false ->
      forall a rest, articles = a :: rest ->
      vault w !! notePath folder (Article.title a) = None ->
      run = (Throw (NoFolder (notePath folder (Article.title a))), w)).
Proof.
  cbv zeta. split.
  - intros Hf. split; [split|].
    + apply batch_returns_free.
    + intros H. now rewrite batch_free.
    + apply batch_returned.
  - intros Hf a rest -> Hnone. simpl. unfold bind.
    rewrite createOrUpdateArticleNote_eq. cbv zeta.
    now rewrite Hnone, Hf.
Qed.

(** X18.  After a batch that was written, the note at the path of an
    article holds the content of the last article of the list that has this
    path, and a path that is the path of none of them holds what it held. *)
Theorem notes_last_write_wins (folder : string)
  (pre post : list Article.t) (a : Article.t) (w : World) (p : string) :
  let articles := pre ++ a :: post in
  let run := for_of articles (write folder) w in
  fst run = Return tt ->
  (forall a', In a' post ->
     notePath folder (Article.title a') <> notePath folder (Article.title a)) ->
  vault (snd run) !! notePath folder (Article.title a)
  = Some (TFile (articleToMarkdown turndown numberToString a))
  /\ ((forall a', In a' articles ->
         notePath folder (Article.title a') <> p) ->
      vault (snd run) !! p = vault w !! p).
Proof.
  cbv zeta. intros H Hpost.
  rewrite batch_returned by exact H.
  simpl. split.
  - rewrite with_notes_app. simpl.
    rewrite with_notes_other by exact Hpost. apply lookup_insert_eq.
  - intros Hp. now apply with_notes_other.
Qed.

(** X19.  Under a folder that is in the vault, a note whose path is a
    folder stops the batch: the notes of the articles before it are
    written, the error is thrown, and the articles after it are not looked
    at. *)
Theorem notes_batch_stops (folder : string) (pre post : list Article.t)
  (a : Article.t) (w : World) :
  is_folder (vault w) folder = true ->
  paths_free folder pre (vault w) ->
  vault w !! notePath folder (Article.title a) = Some TFolder ->
  for_of (pre ++ a :: post) (write folder) w
  = (Throw (Err "File already exists."),
     with_vault (notes folder pre (vault w)) w).
Proof.
  revert w; induction pre as [|b pre IH]; intros w Hf Hfree Hblocked.
  - simpl. unfold bind. rewrite write_blocked by exact Hblocked.
    now destruct w.
  - simpl. unfold bind. rewrite write_free by (auto; apply Hfree; now left).
    rewrite IH; [reflexivity|simpl; now rewrite is_folder_note| |].
    + intros a' Ha'. simpl.
      destruct (decide (notePath folder (Article.title b)
                        = notePath folder (Article.title a'))) as [E|Hne].
      * rewrite <- E, lookup_insert_eq. discriminate.
      * rewrite lookup_insert_ne by exact Hne. apply Hfree. now right.
    + simpl. rewrite lookup_insert_ne; [exact Hblocked|].
      intros E. apply (Hfree b); [now left|]. now rewrite E.
Qed.

End MoreNotes.

(** ** Whole runs of the sync *)

Section MoreSyncRuns.

Variable network : Request.t -> Reply.
Variable latency : Request.t -> Z.
Variable turndown : string -> string.
Variable numberToString : Q -> string.

Local Open Scope plugin_scope.

Lemma ensureFolderExists_eq (folder : string) (w : World) :
  ensureFolderExists folder w
  = (Return tt, with_vault (with_folder folder (vault w)) w).
Proof.
  unfold ensureFolderExists, adapter_exists, adapter_mkdir, with_folder.
  unfold bind, gets, update, ret. simpl.
  destruct (vault w !! folder); simpl; [now destruct w | reflexivity].
Qed.


(** The folder under which [syncWallabagArticles] writes. *)
Local Abbreviation folder_of s :=
  (if truthy (noteFolder s) then noteFolder s else "Wallabag").

Lemma folder_of_not_root (s : WallabagSyncSettings) : folder_of s <> "".
Proof.
  destruct (truthy (noteFolder s)) eqn:E; [|discriminate].
  intros H. rewrite H in E. discriminate.
Qed.






(** *** The console *)

Lemma keeps_console_bind {A B} (m : M A) (k : A -> M B) :
  keeps_console m -> (forall a, keeps_console (k a)) ->
  keeps_console (bind m k).
Proof.
  intros Hm Hk w. unfold bind. specialize (Hm w).
  destruct (m w) as [[a|e|] w1]; simpl in Hm; try exact Hm.
  now rewrite Hk.
Qed.

Lemma keeps_console_for_of {A} (l : list A) (f : A -> M unit) :
  (forall a, keeps_console (f a)) -> keeps_console (for_of l f).
Proof.
  intros Hf. induction l as [|a l IH]; [intros w; reflexivity|].
  simpl. now apply keeps_console_bind.
Qed.

Lemma keeps_console_write_notes (articles : list Article.t) :
  keeps_console (write_notes turndown numberToString articles).
Proof.
  unfold write_notes. apply keeps_console_bind; [intros w; reflexivity|].
  intros s. apply keeps_console_bind.
  { intros w. now rewrite ensureFolderExists_eq. }
  intros _. apply keeps_console_bind; [|intros _ w; reflexivity].
  apply keeps_console_for_of. intros a w.
  rewrite createOrUpdateArticleNote_eq. cbv zeta.
  destruct (vault w !! _) as [[d|]|]; [| |destruct (is_folder _ _)];
    reflexivity.
Qed.

(** X21.  [syncWallabagArticles] never throws.  Either it leaves the console
    as it was, or it has logged one error and its last notice is the one of
    the failure. *)
Theorem sync_reports_instead_of_throwing (fuel : nat) (w : World) :
  let run := syncWallabagArticles network latency turndown numberToString
               fuel w in
  (forall e, fst run <> Throw e)
  /\ (console (snd run) = console w
      \/ exists e ns,
           fst run = Return tt
           /\ console (snd run) = console w ++ [e]
           /\ notices (snd run)
              = ns ++ ["Sync failed. See console for details."]).
Proof.
  cbv zeta. rewrite sync_phases.
  pose proof (ensureTokenValid_frame network latency w) as F. cbv zeta in F.
  destruct (ensureTokenValid network latency w) as [[u|e|] w1];
    simpl in F; destruct F as (_ & Fc & _).
  2: { split; [discriminate|]. right. exists e, (notices w1).
       simpl. now rewrite Fc. }
  2: { split; [discriminate|]. now left. }
  pose proof (fetchArticles_world network latency numberToString fuel w1)
    as G. cbv zeta in G.
  destruct (fetchArticles network latency numberToString fuel w1)
    as [[articles|e|] w2]; simpl in G; destruct G as (_ & Gc & _).
  2: { split; [discriminate|]. right. exists e, (notices w2).
       simpl. now rewrite Gc, Fc. }
  2: { split; [discriminate|]. left. simpl. congruence. }
  unfold try_catch.
  pose proof (keeps_console_write_notes articles w2) as K.
  destruct (write_notes turndown numberToString articles w2)
    as [[u'|e|] w3]; simpl in K.
  - split; [discriminate|]. left. simpl. congruence.
  - split; [discriminate|]. right. exists e, (notices w3).
    simpl. now rewrite K, Gc, Fc.
  - split; [discriminate|]. left. simpl. congruence.
Qed.

(** X22.  Every entry point of the plugin, the sync and the handlers of the
    settings tab, ends with the persisted data equal to the settings when it
    starts so, whatever happens in it. *)
Theorem entry_points_keep_data_in_step (fuel : nat) (value : string)
  (flag : bool) (w : World) :
  saved w = settings w ->
  Forall (fun entry : M unit =>
            saved (snd (entry w)) = settings (snd (entry w)))
    [syncWallabagArticles network latency turndown numberToString fuel;
     noteFolder_onChange value; onlyStarred_onChange flag;
     instanceUrl_onChange value; clientId_onChange value;
     clientSecret_onChange value; username_onChange value;
     password_onChange value; permaAPIKey_onChange value;
     resetSync_onClick].
Proof.
  intros H. constructor; [|repeat constructor].
  destruct (sync_after_fetch network latency turndown numberToString fuel w)
    as (Hs & Hp & _). rewrite Hs, Hp. clear Hs Hp.
  assert (H1 : saved (snd (ensureTokenValid network latency w))
               = settings (snd (ensureTokenValid network latency w))).
  { destruct (token_stale_dec w) as [Hst|Hst].
    - rewrite ensureTokenValid_stale by exact Hst.
      now apply authenticate_in_step.
    - now rewrite ensureTokenValid_fresh by exact Hst. }
  destruct (ensureTokenValid network latency w) as [[u|e|] w1];
    simpl in H1; try exact H1.
  pose proof (fetchArticles_world network latency numberToString fuel w1)
    as G. cbv zeta in G. destruct G as (_ & _ & G).
  destruct (fst (fetchArticles network latency numberToString fuel w1));
    destruct G as [-> ->]; auto.
Qed.

End MoreSyncRuns.

(** ** The settings tab and the stored data *)

Section MoreSettings.

Variable network : Request.t -> Reply.
Variable latency : Request.t -> Z.
Variable turndown : string -> string.
Variable numberToString : Q -> string.

Local Open Scope plugin_scope.

(** X23.  After "Reset sync" the watermark is 0 and the tokens are the same:
    the first request of the next fetch asks for everything since 0, with
    the access token held before. *)
Theorem reset_then_fetch (fuel : nat) (w : World) (r : Request.t) :
  let s := settings w in
  let w0 := snd (resetSync_onClick w) in
  issued w0 (snd (fetchArticles network latency numberToString fuel w0)) !! 0
  = Some r ->
  settings w0 = set_since 0 s
  /\ Request.url r
     = instanceUrl s +:+ "/api/entries.json?since=" +:+ numberToString 0
       +:+ "&page=" +:+ numberToString (inject_Z (Z.of_nat 1))
       +:+ "&perPage=30" +:+ (if onlyStarred s then "&starred=1" else "")
  /\ Request.headers r = [("Authorization", "Bearer " +:+ accessToken s)].
Proof.
  cbv zeta. intros H. split; [reflexivity|].
  destruct (fetchArticles_issued network latency numberToString fuel
              (snd (resetSync_onClick w))) as (new & Hreq & Hall & _).
  rewrite (issued_app _ _ _ Hreq) in H. rewrite (Hall 0 r H).
  unfold entries_request. simpl. split; [|reflexivity].
  destruct (onlyStarred (settings w)).
  - now rewrite !StrFacts.app_assoc.
  - now rewrite !StrFacts.app_nil_r.
Qed.

Lemma trim_blank (value : string) :
  (forall c, Str.mem c value = true -> Str.is_space c = true) ->
  Str.trim value = "".
Proof.
  intros H. unfold Str.trim.
  assert (E : Str.trimStart value = ""); [|now rewrite E].
  induction value as [|x s IH]; [reflexivity|]. simpl.
  rewrite (H x) by (rewrite mem_cons, Ascii.eqb_refl; reflexivity).
  apply IH. intros c Hc. apply H. rewrite mem_cons, Hc. apply orb_true_r.
Qed.

(** X24.  The folder handler never leaves an empty folder name: the name
    is the text trimmed, or [Wallabag] when nothing is left of it, and it is
    the folder the sync writes under. *)
Theorem noteFolder_never_empty (value : string) (w : World) :
  let s' := settings (snd (noteFolder_onChange value w)) in
  noteFolder s' <> ""
  /\ (Str.trim value <> "" -> noteFolder s' = Str.trim value)
  /\ ((forall c, Str.mem c value = true -> Str.is_space c = true) ->
      noteFolder s' = "Wallabag")
  /\ (if truthy (noteFolder s') then noteFolder s' else "Wallabag")
     = noteFolder s'.
Proof.
  cbv zeta. simpl.
  split; [|split; [|split]].
  - destruct (Str.trim value) eqn:E; simpl; [discriminate|].
    rewrite <- E at 1. rewrite E. discriminate.
  - intros H. destruct (Str.trim value); [congruence|reflexivity].
  - intros H. now rewrite trim_blank.
  - destruct (Str.trim value); reflexivity.
Qed.

(** X25.  A client id, client secret, user name or password entered as
    white space only is stored empty, and [authenticate] then throws
    "Missing credentials" without a request. *)
Theorem blank_credential_stops_authenticate (value : string) (w : World) :
  (forall c, Str.mem c value = true -> Str.is_space c = true) ->
  Forall (fun handler : string -> M unit =>
            let w1 := snd (handler value w) in
            authenticate network latency w1
            = (Throw (Err "Missing credentials"),
               with_notice
                 "Please fill in all Wallabag credentials in the settings."
                 w1))
    [clientId_onChange; clientSecret_onChange; username_onChange;
     password_onChange].
Proof.
  intros H. pose proof (trim_blank value H) as E.
  repeat constructor; cbv zeta; apply authenticate_missing;
    unfold credentials_missing; simpl; rewrite E; auto.
Qed.

(** *** The stored data *)

(** X26.  What [saveData] has stored, [loadSettings] reads back as the same
    settings.  With no stored data the four keys of [DEFAULT_SETTINGS] have
    their defaults (instance [https://app.wallabag.it], folder [Wallabag],
    starred articles only, watermark 0), no token and no credential is
    held, and the expiry is undefined.  A stored watermark or expiry is
    read back even when other keys are missing, an expiry that is not
    stored stays undefined, and a missing watermark or starred flag has its
    default. *)
Theorem loadSettings_round_trip (s : WallabagSyncSettings)
  (data : Stored.t) (q : Q) :
  loadSettings (Some (stored s)) = s
  /\ (let s0 := loadSettings None in
      instanceUrl s0 = "https://app.wallabag.it"
      /\ noteFolder s0 = "Wallabag" /\ onlyStarred s0 = true
      /\ since s0 = 0%Q /\ tokenExpiry s0 = None
      /\ truthy (accessToken s0) = false
      /\ truthy (clientId s0) = false /\ truthy (clientSecret s0) = false
      /\ truthy (username s0) = false /\ truthy (password s0) = false)
  /\ (Stored.since data = Some q -> since (loadSettings (Some data)) = q)
  /\ (Stored.since data = None -> since (loadSettings (Some data)) = 0%Q)
  /\ (Stored.onlyStarred data = None ->
      onlyStarred (loadSettings (Some data)) = true)
  /\ tokenExpiry (loadSettings (Some data)) = Stored.tokenExpiry data.
Proof.
  split; [destruct s as [? ? ? ? ? ? ? ? ? ? [e|] ?]; reflexivity|].
  split; [cbv zeta; repeat split|].
  unfold loadSettings. simpl.
  split; [intros ->; reflexivity|]. split; [intros ->; reflexivity|].
  split; [intros ->; reflexivity|]. now destruct (Stored.tokenExpiry data).
Qed.

(** X27.  A plugin that has loaded stored data without a token and without
    one of the four credentials that have no default (so with no stored data
    at all) syncs without a request: the sync reports the missing
    credentials and leaves the vault as it is. *)
Theorem first_sync_without_credentials (fuel : nat) (data : option Stored.t)
  (v : gmap string Entry) (t : Z) :
  (forall o, data = Some o ->
     Stored.accessToken o = None
     /\ (Stored.clientId o = None \/ Stored.clientSecret o = None
         \/ Stored.username o = None \/ Stored.password o = None)) ->
  let run := syncWallabagArticles network latency turndown numberToString
               fuel (loaded data v t) in
  fst run = Return tt
  /\ requests (snd run) = []
  /\ vault (snd run) = v
  /\ console (snd run) = [Err "Missing credentials"]
  /\ notices (snd run)
     = ["Please fill in all Wallabag credentials in the settings.";
        "Sync failed. See console for details."].
Proof.
  intros H. cbv zeta. rewrite sync_phases.
  assert (Hstale : token_stale (loaded data v t)).
  { left. destruct data as [o|]; [|reflexivity].
    destruct (H o eq_refl) as [E _]. simpl. now rewrite E. }
  assert (Hmiss : credentials_missing (settings (loaded data v t))).
  { unfold credentials_missing. destruct data as [o|]; [|simpl; auto].
    destruct (H o eq_refl) as [_ [E|[E|[E|E]]]]; simpl; rewrite E; auto. }
  rewrite ensureTokenValid_stale by exact Hstale.
  rewrite authenticate_missing by exact Hmiss.
  simpl. auto.
Qed.

End MoreSettings.

(** ** More runs of the instances *)

Lemma authenticate_stores_the_grant_run :
  let run := authenticate Demo.network Demo.latency
               (Demo.world Demo.config ∅) in
  fst run = Return tt
  /\ accessToken (settings (snd run)) = "fresh"
  /\ tokenExpiry (settings (snd run)) = Some 1700003600250%Z
  /\ saved (snd run) = settings (snd run).
Proof.
  pose proof (authenticate_stores_the_grant Demo.network Demo.latency
                (Demo.world Demo.config ∅)
                {| Response.ok := true; Response.text := "";
                   Response.json := Demo.grant |}) as T.
  cbv zeta in T. destruct T as (T1 & T2 & T3 & _).
  - vm_compute. intuition discriminate.
  - reflexivity.
  - reflexivity.
  - cbv zeta.
    split; [exact T1
           |split; [rewrite T2; reflexivity
                   |split; [rewrite T2; reflexivity | exact T3]]].
Defined.

Lemma authenticate_refused_run :
  let run := authenticate Cases.denied Demo.latency
               (Demo.world Cases.lapsed ∅) in
  fst run = Throw (Err "invalid_grant")
  /\ accessToken (settings (snd run)) = "old".
Proof.
  pose proof (authenticate_failure_keeps_token Cases.denied Demo.latency
                (Demo.world Cases.lapsed ∅)) as T.
  cbv zeta in T.
  assert (Hm : ~ credentials_missing (settings (Demo.world Cases.lapsed ∅)))
    by (vm_compute; intuition discriminate).
  specialize (T Hm). simpl in T.
  destruct (T eq_refl) as (T1 & T2 & _).
  cbv zeta. split; [exact T1 | exact (f_equal accessToken T2)].
Defined.

Lemma ensureTokenValid_reuses_grant_run :
  let w1 := snd (ensureTokenValid Demo.network Demo.latency
                   (Demo.world Demo.config ∅)) in
  ensureTokenValid Demo.network Demo.latency (later 1000 w1)
  = (Return tt, later 1000 w1)
  /\ ensureTokenValid Demo.network Demo.latency (later 3540001 w1)
     = authenticate Demo.network Demo.latency (later 3540001 w1).
Proof.
  cbv zeta. split.
  - apply (ensureTokenValid_reuses_grant Demo.network Demo.latency
             (Demo.world Demo.config ∅) _ {| Response.ok := true; Response.text := "";
                Response.json := Demo.grant |} 1000).
    + left. reflexivity.
    + vm_compute. reflexivity.
    + vm_compute. reflexivity.
    + vm_compute. discriminate.
    + vm_compute. discriminate.
  - apply (ensureTokenValid_reuses_grant Demo.network Demo.latency
             (Demo.world Demo.config ∅) _ {| Response.ok := true; Response.text := "";
                Response.json := Demo.grant |} 3540001).
    + left. reflexivity.
    + vm_compute. reflexivity.
    + vm_compute. reflexivity.
    + vm_compute. discriminate.
    + vm_compute. reflexivity.
Defined.

Lemma fetchArticles_two_pages_run :
  fst (fetchArticles Demo.network Demo.latency Demo.numberToString 2
         (Demo.world Demo.signed_in ∅))
  = Return [Demo.article1; Demo.article2].
Proof.
  pose proof (fetchArticles_all_pages Demo.network Demo.latency
                Demo.numberToString 2 (Demo.world Demo.signed_in ∅)
                [ {| Response.ok := true; Response.text := "";
                     Response.json := Demo.page [Demo.article1] true |} ]
                {| Response.ok := true; Response.text := "";
                   Response.json := Demo.page [Demo.article2] false |}) as T.
  cbv zeta in T. destruct T as (T1 & _).
  - intros [|[|i]] resp H; simpl in H; try discriminate.
    injection H as <-. repeat split; vm_compute; reflexivity.
  - vm_compute. reflexivity.
  - reflexivity.
  - reflexivity.
  - simpl. lia.
  - exact T1.
Defined.

Lemma fetchArticles_never_ends_run :
  fst (fetchArticles Cases.endless Demo.latency Demo.numberToString 7
         (Demo.world Demo.signed_in ∅)) = Pending.
Proof.
  apply (fetchArticles_never_ends Cases.endless Demo.latency
           Demo.numberToString 7 (Demo.world Demo.signed_in ∅)).
  intros i. eexists. split; [reflexivity|]. split; reflexivity.
Defined.

Lemma rejected_page_run :
  let w' := snd (syncWallabagArticles Cases.offline Demo.latency
                   Demo.turndown Demo.numberToString 5
                   (Demo.world Demo.signed_in ∅)) in
  console w' = [Err "Failed to fetch"] /\ vault w' = ∅
  /\ since (settings w') = 0%Q.
Proof.
  pose proof (rejected_page_keeps_watermark Cases.offline Demo.latency
                Demo.turndown Demo.numberToString 5
                (Demo.world Demo.signed_in ∅)
                {| Request.method := GET;
                   Request.url := Demo.page_url "1";
                   Request.headers := [("Authorization", "Bearer tok")];
                   Request.body := [] |}
                (Err "Failed to fetch")) as T.
  cbv zeta in T. destruct T as (T1 & T2 & T3 & _).
  - vm_compute. auto.
  - reflexivity.
  - reflexivity.
  - reflexivity.
  - cbv zeta. split; [exact T1 | split; [exact T2 | exact T3]].
Defined.

Lemma notes_batch_run :
  let write := fun article =>
    createOrUpdateArticleNote Demo.turndown Demo.numberToString article
      "Wallabag" in
  fst (for_of [Demo.article1; Demo.article2] write
         (Demo.world Demo.config Cases.shelf)) = Return tt
  /\ for_of [Demo.article1; Demo.article2] write
       (Demo.world Demo.config Cases.misplaced)
     = (Throw (NoFolder "Wallabag/A-B- Test.md"),
        Demo.world Demo.config Cases.misplaced)
  /\ for_of [Demo.article1; Demo.article2] write (Demo.world Demo.config ∅)
     = (Throw (NoFolder "Wallabag/A-B- Test.md"), Demo.world Demo.config ∅).
Proof.
  pose proof (notes_batch Demo.turndown Demo.numberToString "Wallabag"
                [Demo.article1; Demo.article2]
                (Demo.world Demo.config Cases.shelf)) as T1.
  pose proof (notes_batch Demo.turndown Demo.numberToString "Wallabag"
                [Demo.article1; Demo.article2]
                (Demo.world Demo.config Cases.misplaced)) as T2.
  pose proof (notes_batch Demo.turndown Demo.numberToString "Wallabag"
                [Demo.article1; Demo.article2]
                (Demo.world Demo.config ∅)) as T3.
  cbv zeta in T1, T2, T3.
  destruct T1 as (T1 & _). destruct T2 as (_ & T2). destruct T3 as (_ & T3).
  cbv zeta. split; [|split].
  - apply (T1 eq_refl).
    intros a [<-|[<-|[]]]; vm_compute; discriminate.
  - exact (T2 eq_refl Demo.article1 [Demo.article2] eq_refl eq_refl).
  - exact (T3 eq_refl Demo.article1 [Demo.article2] eq_refl eq_refl).
Defined.

Lemma notes_last_write_wins_run :
  vault (snd (for_of [Cases.slash; Cases.colon]
                (fun article =>
                   createOrUpdateArticleNote Demo.turndown
                     Demo.numberToString article "Wallabag")
                (Demo.world Demo.config Cases.shelf)))
  !! "Wallabag/Q-A.md"
  = Some (TFile (articleToMarkdown Demo.turndown Demo.numberToString
                   Cases.colon)).
Proof.
  apply (notes_last_write_wins Demo.turndown Demo.numberToString "Wallabag"
           [Cases.slash] [] Cases.colon (Demo.world Demo.config Cases.shelf)
           "").
  - vm_compute. reflexivity.
  - intros a' [].
Defined.

Lemma notes_batch_stops_run :
  for_of [Demo.article1; Demo.article2; Cases.slash]
    (fun article =>
       createOrUpdateArticleNote Demo.turndown Demo.numberToString article
         "Wallabag")
    (Demo.world Demo.config Demo.blocked)
  = (Throw (Err "File already exists."),
     with_vault
       (with_notes Demo.turndown Demo.numberToString "Wallabag"
          [Demo.article1] Demo.blocked)
       (Demo.world Demo.config Demo.blocked)).
Proof.
  apply (notes_batch_stops Demo.turndown Demo.numberToString "Wallabag"
           [Demo.article1] [Cases.slash] Demo.article2
           (Demo.world Demo.config Demo.blocked)).
  - vm_compute. reflexivity.
  - intros a [<-|[]]. vm_compute. discriminate.
  - vm_compute. reflexivity.
Defined.


Lemma sync_keeps_data_in_step_run :
  let w' := snd (syncWallabagArticles Demo.flaky Demo.latency Demo.turndown
                   Demo.numberToString 5 (Demo.world Demo.config ∅)) in
  saved w' = settings w' /\ accessToken (saved w') = "fresh".
Proof.
  pose proof (entry_points_keep_data_in_step Demo.flaky Demo.latency
                Demo.turndown Demo.numberToString 5 "" true
                (Demo.world Demo.config ∅) eq_refl) as T.
  apply Forall_inv in T. cbv zeta. split; [exact T|].
  vm_compute. reflexivity.
Defined.

Lemma reset_then_fetch_run :
  let w0 := snd (resetSync_onClick
                   (Demo.world (set_since 1700000000 Demo.signed_in) ∅)) in
  since (settings w0) = 0%Q
  /\ (requests (snd (fetchArticles Demo.network Demo.latency
                       Demo.numberToString 5 w0))
      !! 0 = Some {| Request.method := GET;
                     Request.url := Demo.page_url "1";
                     Request.headers := [("Authorization", "Bearer tok")];
                     Request.body := [] |}).
Proof.
  assert (H : issued
                (snd (resetSync_onClick
                        (Demo.world (set_since 1700000000 Demo.signed_in) ∅)))
                (snd (fetchArticles Demo.network Demo.latency
                        Demo.numberToString 5
                        (snd (resetSync_onClick
                                (Demo.world
                                   (set_since 1700000000 Demo.signed_in)
                                   ∅)))))
              !! 0
              = Some {| Request.method := GET;
                        Request.url := Demo.page_url "1";
                        Request.headers := [("Authorization", "Bearer tok")];
                        Request.body := [] |})
    by (vm_compute; reflexivity).
  pose proof (reset_then_fetch Demo.network Demo.latency Demo.numberToString
                5 (Demo.world (set_since 1700000000 Demo.signed_in) ∅) _ H)
    as T.
  cbv zeta in T. destruct T as (T1 & _).
  cbv zeta. rewrite T1. split; [reflexivity | exact H].
Defined.

Lemma blank_password_run :
  fst (authenticate Demo.network Demo.latency
         (snd (password_onChange "   " (Demo.world Demo.config ∅))))
  = Throw (Err "Missing credentials").
Proof.
  assert (H : forall c, Str.mem c "   " = true -> Str.is_space c = true).
  { intros c Hc. simpl in Hc. rewrite !orb_false_r, orb_diag, orb_diag in Hc.
    apply Ascii.eqb_eq in Hc as ->. reflexivity. }
  pose proof (blank_credential_stops_authenticate Demo.network Demo.latency
                "   " (Demo.world Demo.config ∅) H) as T.
  apply Forall_inv_tail, Forall_inv_tail, Forall_inv_tail, Forall_inv in T.
  cbv zeta in T. now rewrite T.
Defined.

Lemma first_sync_of_a_fresh_install :
  let run := syncWallabagArticles Demo.network Demo.latency Demo.turndown
               Demo.numberToString 5 (loaded None ∅ 1700000000000) in
  fst run = Return tt /\ requests (snd run) = []
  /\ console (snd run) = [Err "Missing credentials"].
Proof.
  pose proof (first_sync_without_credentials Demo.network Demo.latency
                Demo.turndown Demo.numberToString 5 None ∅ 1700000000000)
    as T.
  cbv zeta in T. destruct T as (T1 & T2 & _ & T4 & _).
  - intros o H. discriminate.
  - cbv zeta. auto.
Defined.
